(** * Jitterbug: a shallow embedding of [jitterbug_dmc/jitterbug.py]

    The task, observation and reward logic of the Jitterbug dm_control domain,
    written as Rocq functions that follow the Python source method by method.

    Conventions of the embedding:
    - numpy [float64] scalars are idealised as real numbers ([R]); rounding,
      overflow, NaN and signed zeros are outside the model;
    - numpy arrays are lists of reals, slices are [firstn]/[skipn], indexing
      is [nth] with default [0];
    - a method that may raise returns [result A], the sum of the raised
      exception and the value;
    - mutable objects (the task's [RandomState], numpy's module-level
      [RandomState], the MuJoCo model) are threaded through explicitly;
    - the two [while] loops of [angle_jitterbug_to_target] are modelled with
      fuel; a budget computed from the starting angle is proved sufficient. *)

From Stdlib Require Import Reals Lra Lia List String ZArith Bool.
Import ListNotations.

Open Scope R_scope.

(* ================================================================= *)
(** ** Python and numpy primitives *)

(** Exceptions raised by the module. *)
Inductive exn : Type :=
| AssertionError (msg : string)
| ValueError (msg : string).

Definition result (A : Type) : Type := (exn + A)%type.

Definition raise {A : Type} (e : exn) : result A := inl e.
Definition ret {A : Type} (a : A) : result A := inr a.
Definition bind {A B : Type} (m : result A) (k : A -> result B) : result B :=
  match m with
  | inl e => inl e
  | inr a => k a
  end.

(** Python's built-in [max(a, b)] and [min(a, b)] on two arguments: the first
    argument is kept unless the second is strictly better. *)
Definition py_max (a b : R) : R := if Rlt_dec a b then b else a.
Definition py_min (a b : R) : R := if Rlt_dec b a then b else a.

(** [str in list_of_str]. *)
Definition py_in (s : string) (l : list string) : bool :=
  existsb (String.eqb s) l.

(** [repr] of a list of plain identifiers, as used by [str.format]. *)
Definition repr_str (s : string) : string := ("'" ++ s ++ "'")%string.
Definition repr_list (l : list string) : string :=
  ("[" ++ String.concat ", " (map repr_str l) ++ "]")%string.

Module np.

Definition pi : R := PI.

(** [np.arctan2(y, x)]: the angle of the point [(x, y)], in [(-pi, pi]]. *)
Definition arctan2 (y x : R) : R :=
  if Rlt_dec 0 x then atan (y / x)
  else if Rlt_dec x 0 then
    (if Rle_dec 0 y then atan (y / x) + PI else atan (y / x) - PI)
  else
    (if Rlt_dec 0 y then PI / 2
     else if Rlt_dec y 0 then - (PI / 2)
     else 0).

(** Elementwise [a - b] on arrays of the same shape. *)
Definition sub (a b : list R) : list R :=
  map (fun p => fst p - snd p) (combine a b).

(** [a @ b] on two 1-D arrays of the same length. *)
Definition dot (a b : list R) : R :=
  fold_right (fun p acc => fst p * snd p + acc) 0 (combine a b).

(** [np.linalg.norm] of a 1-D array: the Euclidean norm. *)
Definition linalg_norm (a : list R) : R :=
  sqrt (fold_right (fun x acc => x * x + acc) 0 a).

(** A [numpy.random.RandomState], seen through the stream of unit-interval
    samples it is going to produce and the position reached in it. *)
Record RandomState : Type := mkRandomState {
  samples : nat -> R;
  cursor : nat
}.

Definition random_sample (rs : RandomState) : R * RandomState :=
  (samples rs (cursor rs), mkRandomState (samples rs) (S (cursor rs))).

(** [RandomState.uniform(low, high)]: one sample, scaled. *)
Definition uniform (low high : R) (rs : RandomState) : R * RandomState :=
  let (u, rs') := random_sample rs in
  (low + (high - low) * u, rs').

End np.

Module mjlib.

(** [mju_quat2Mat(res, quat)]: the row-major 3x3 rotation matrix of the
    quaternion [(w, x, y, z)].  MuJoCo is not part of the repository; this
    is its documented formula. *)
Definition mju_quat2Mat (quat : list R) : list R :=
  let q0 := nth 0 quat 0 in
  let q1 := nth 1 quat 0 in
  let q2 := nth 2 quat 0 in
  let q3 := nth 3 quat 0 in
  [ q0 * q0 + q1 * q1 - q2 * q2 - q3 * q3;
    2 * (q1 * q2 - q0 * q3);
    2 * (q1 * q3 + q0 * q2);
    2 * (q1 * q2 + q0 * q3);
    q0 * q0 - q1 * q1 + q2 * q2 - q3 * q3;
    2 * (q2 * q3 - q0 * q1);
    2 * (q1 * q3 - q0 * q2);
    2 * (q2 * q3 + q0 * q1);
    q0 * q0 - q1 * q1 - q2 * q2 + q3 * q3 ].

End mjlib.

(** [mat.reshape((3, 3))[i, j]] for a flat row-major array of nine. *)
Definition mat_at (mat : list R) (i j : nat) : R := nth (i * 3 + j) mat 0.

(* ================================================================= *)
(** ** The simulation state the module reads and writes *)

(** The entries of [physics.named.data] the module reads.  The free joint
    [root] has seven position coordinates (xyz and a quaternion) and six
    velocity coordinates; the hinge joint [jointMass] has one of each. *)
Record NamedData : Type := mkNamedData {
  qpos_root_xyz : R * R * R;
  qpos_root_quat : R * R * R * R;
  qvel_root_xyz : R * R * R;
  qvel_root_rpy : R * R * R;
  qpos_jointMass : R;
  qvel_jointMass : R;
  geom_xpos_target : R * R * R;
  xquat_target : R * R * R * R;
  xmat_jitterbug_zz : R
}.

(** The entries of [physics.named.model] that [initialize_episode] writes. *)
Record NamedModel : Type := mkNamedModel {
  geom_rgba_targetPointer_3 : R;
  body_pos_target_x : R;
  body_pos_target_y : R;
  body_quat_target : list R
}.

Record Physics : Type := mkPhysics {
  data : NamedData;
  model : NamedModel
}.

Definition arr3 (v : R * R * R) : list R :=
  let '(a, b, c) := v in [a; b; c].
Definition arr4 (q : R * R * R * R) : list R :=
  let '(a, b, c, d) := q in [a; b; c; d].

Definition qpos_root (d : NamedData) : list R :=
  arr3 (qpos_root_xyz d) ++ arr4 (qpos_root_quat d).
Definition qvel_root (d : NamedData) : list R :=
  arr3 (qvel_root_xyz d) ++ arr3 (qvel_root_rpy d).

(* ================================================================= *)
(** ** class Physics *)

Definition jitterbug_position (physics : Physics) : list R :=
  qpos_root (data physics).

Definition jitterbug_position_xyz (physics : Physics) : list R :=
  firstn 3 (jitterbug_position physics).

Definition jitterbug_position_quat (physics : Physics) : list R :=
  skipn 3 (jitterbug_position physics).

Definition jitterbug_direction_yaw (physics : Physics) : R :=
  let mat := mjlib.mju_quat2Mat (jitterbug_position_quat physics) in
  let yaw := np.arctan2 (mat_at mat 1 0) (mat_at mat 0 0) in
  yaw - np.pi / 2.

Definition jitterbug_velocity (physics : Physics) : list R :=
  qvel_root (data physics).

Definition jitterbug_velocity_xyz (physics : Physics) : list R :=
  firstn 3 (jitterbug_velocity physics).

Definition jitterbug_velocity_rpy (physics : Physics) : list R :=
  skipn 3 (jitterbug_velocity physics).

Definition motor_position (physics : Physics) : list R :=
  [qpos_jointMass (data physics)].

Definition motor_velocity (physics : Physics) : list R :=
  [qvel_jointMass (data physics)].

Definition target_position_xyz (physics : Physics) : list R :=
  arr3 (geom_xpos_target (data physics)).

Definition target_position_quat (physics : Physics) : list R :=
  arr4 (xquat_target (data physics)).

Definition target_position (physics : Physics) : list R :=
  target_position_xyz physics ++ target_position_quat physics.

Definition target_direction_yaw (physics : Physics) : R :=
  let mat := mjlib.mju_quat2Mat (target_position_quat physics) in
  np.arctan2 (mat_at mat 1 0) (mat_at mat 0 0).

Definition target_direction_vec2 (physics : Physics) : list R :=
  let target_yaw := target_direction_yaw physics in
  [cos target_yaw; sin target_yaw].

Definition vec3_jitterbug_to_target (physics : Physics) : list R :=
  np.sub (target_position_xyz physics) (jitterbug_position_xyz physics).

(** [while angle > np.pi: angle -= 2*np.pi], with an iteration budget. *)
Fixpoint while_above_pi (fuel : nat) (angle : R) : option R :=
  if Rlt_dec np.pi angle then
    match fuel with
    | O => None
    | S fuel' => while_above_pi fuel' (angle - 2 * np.pi)
    end
  else Some angle.

(** [while angle <= -np.pi: angle += 2*np.pi], with an iteration budget. *)
Fixpoint while_below_minus_pi (fuel : nat) (angle : R) : option R :=
  if Rle_dec angle (- np.pi) then
    match fuel with
    | O => None
    | S fuel' => while_below_minus_pi fuel' (angle + 2 * np.pi)
    end
  else Some angle.

(** The body of [angle_jitterbug_to_target] from a given starting angle. *)
Definition wrap_angle_fuel (fuel : nat) (angle : R) : option R :=
  match while_above_pi fuel angle with
  | Some angle' => while_below_minus_pi fuel angle'
  | None => None
  end.

(** A budget that is enough for both loops: neither runs more often than
    [|angle| / (2 pi)] rounded up. *)
Definition wrap_budget (angle : R) : nat :=
  Z.to_nat (up (Rabs angle / (2 * np.pi))).

Definition wrap_angle (angle : R) : R :=
  match wrap_angle_fuel (wrap_budget angle) angle with
  | Some angle' => angle'
  | None => angle
  end.

Definition angle_jitterbug_to_target_fuel (fuel : nat) (physics : Physics)
  : option R :=
  wrap_angle_fuel fuel
    (target_direction_yaw physics - jitterbug_direction_yaw physics).

Definition angle_jitterbug_to_target (physics : Physics) : R :=
  wrap_angle (target_direction_yaw physics - jitterbug_direction_yaw physics).

Definition vec2_direction_to_target (physics : Physics) : list R :=
  let target_yaw := angle_jitterbug_to_target physics in
  [cos target_yaw; sin target_yaw].

(* ================================================================= *)
(** ** Module-level state: the task registry *)

(** What [inspect.getmembers(sys.modules[__name__])] sees of a member. *)
Inductive member_kind : Type := Function | Class | Other.

(** The names the module defines or imports, sorted as [getmembers] sorts
    them. *)
Definition module_members : list (string * member_kind) :=
  [ ("DEFAULT_CONTROL_TIMESTEP", Other);
    ("DEFAULT_TIME_LIMIT", Other);
    ("Jitterbug", Class);
    ("Physics", Class);
    ("SUITE", Other);
    ("absolute_import", Other);
    ("base", Other);
    ("collections", Other);
    ("common", Other);
    ("containers", Other);
    ("control", Other);
    ("demo", Function);
    ("division", Other);
    ("face_direction", Function);
    ("get_model_and_assets", Function);
    ("inspect", Other);
    ("mjlib", Other);
    ("move_from_origin", Function);
    ("move_in_direction", Function);
    ("move_to_pose", Function);
    ("move_to_position", Function);
    ("mujoco", Other);
    ("np", Other);
    ("os", Other);
    ("print_function", Other);
    ("resources", Other);
    ("rewards", Other);
    ("sys", Other) ]%string.

(** [SUITE._tasks]: the functions decorated with [@SUITE.add], in order. *)
Definition SUITE_tasks : list string :=
  [ "move_from_origin"; "face_direction"; "move_in_direction";
    "move_to_position"; "move_to_pose" ]%string.

Definition isfunction (k : member_kind) : bool :=
  match k with
  | Function => true
  | _ => false
  end.

(* ================================================================= *)
(** ** class Jitterbug *)

Record Jitterbug : Type := mkJitterbug {
  task_names : list string;
  task : string;
  random : np.RandomState
}.

(** [Jitterbug.__init__(self, random, task)]. *)
Definition Jitterbug_init (random : np.RandomState) (task : string)
  : result Jitterbug :=
  let task_names :=
    map fst
      (filter (fun obj => isfunction (snd obj) && py_in (fst obj) SUITE_tasks)
              module_members) in
  if py_in task task_names then
    ret (mkJitterbug task_names task random)
  else
    raise (AssertionError
             ("Invalid task " ++ task ++ ", options are "
              ++ repr_list task_names)%string).

(** The mutable objects [initialize_episode] touches: the task (for its
    [RandomState]), numpy's module-level [RandomState] behind
    [np.random.uniform], and the physics. *)
Record World : Type := mkWorld {
  w_self : Jitterbug;
  w_np_random : np.RandomState;
  w_physics : Physics
}.

Definition set_model (physics : Physics) (m : NamedModel) : Physics :=
  mkPhysics (data physics) m.

Definition set_geom_rgba_targetPointer_3 (v : R) (physics : Physics) : Physics :=
  let m := model physics in
  set_model physics
    (mkNamedModel v (body_pos_target_x m) (body_pos_target_y m)
                  (body_quat_target m)).

Definition set_body_pos_target_x (v : R) (physics : Physics) : Physics :=
  let m := model physics in
  set_model physics
    (mkNamedModel (geom_rgba_targetPointer_3 m) v (body_pos_target_y m)
                  (body_quat_target m)).

Definition set_body_pos_target_y (v : R) (physics : Physics) : Physics :=
  let m := model physics in
  set_model physics
    (mkNamedModel (geom_rgba_targetPointer_3 m) (body_pos_target_x m) v
                  (body_quat_target m)).

Definition set_body_quat_target (v : list R) (physics : Physics) : Physics :=
  let m := model physics in
  set_model physics
    (mkNamedModel (geom_rgba_targetPointer_3 m) (body_pos_target_x m)
                  (body_pos_target_y m) v).

(** The three draws at the top of [initialize_episode]: [angle] and [radius]
    from [self.random], [yaw] from [np.random]. *)
Record Draws : Type := mkDraws {
  d_angle : R;
  d_radius : R;
  d_yaw : R;
  d_random : np.RandomState;
  d_np_random : np.RandomState
}.

Definition draw_targets (self_random np_random : np.RandomState) : Draws :=
  let (angle, self_random1) := np.uniform 0 (2 * np.pi) self_random in
  let (radius, self_random2) := np.uniform 0.05 0.3 self_random1 in
  let (yaw, np_random1) := np.uniform 0 (2 * np.pi) np_random in
  mkDraws angle radius yaw self_random2 np_random1.

(** [Jitterbug.initialize_episode(self, physics)].  The writes are those made
    inside [physics.reset_context()]; the engine's own recomputation when the
    context closes and [base.Task.initialize_episode] draw nothing and are not
    modelled. *)
Definition initialize_episode (w : World) : result World :=
  let self := w_self w in
  let physics := w_physics w in
  let d := draw_targets (random self) (w_np_random w) in
  let angle := d_angle d in
  let radius := d_radius d in
  let yaw := d_yaw d in
  let self' := mkJitterbug (task_names self) (task self) (d_random d) in
  let done physics' := ret (mkWorld self' (d_np_random d) physics') in
  if (task self =? "move_from_origin")%string then
    done (set_geom_rgba_targetPointer_3 0 physics)
  else if (task self =? "face_direction")%string then
    done (set_body_quat_target [cos (yaw / 2); 0; 0; 1 * sin (yaw / 2)] physics)
  else if (task self =? "move_in_direction")%string then
    done (set_body_quat_target [cos (yaw / 2); 0; 0; 1 * sin (yaw / 2)] physics)
  else if (task self =? "move_to_position")%string then
    done
      (set_body_pos_target_y (radius * cos angle)
        (set_body_pos_target_x (radius * sin angle)
          (set_geom_rgba_targetPointer_3 0 physics)))
  else if (task self =? "move_to_pose")%string then
    done
      (set_body_quat_target [cos (yaw / 2); 0; 0; 1 * sin (yaw / 2)]
        (set_body_pos_target_y (radius * cos angle)
          (set_body_pos_target_x (radius * sin angle) physics)))
  else
    raise (ValueError ("Invalid task " ++ task self)%string).

(** A [collections.OrderedDict] keyed by field name: assigning to a new key
    appends, assigning to an existing key replaces in place. *)
Definition OrderedDict : Type := list (string * list R).

Fixpoint setitem (obs : OrderedDict) (k : string) (v : list R) : OrderedDict :=
  match obs with
  | [] => [(k, v)]
  | (k', v') :: rest =>
      if (k' =? k)%string then (k', v) :: rest
      else (k', v') :: setitem rest k v
  end.

Definition keys (obs : OrderedDict) : list string := map fst obs.

(** [Jitterbug.get_observation(self, physics)]. *)
Definition get_observation (self : Jitterbug) (physics : Physics)
  : result OrderedDict :=
  let obs := [] in
  let obs := setitem obs "position" (jitterbug_position physics) in
  let obs := setitem obs "velocity" (jitterbug_velocity physics) in
  let obs := setitem obs "motor_position" (motor_position physics) in
  let obs := setitem obs "motor_velocity" (motor_velocity physics) in
  if (task self =? "move_from_origin")%string then
    ret obs
  else if (task self =? "face_direction")%string then
    ret (setitem obs "target_direction" (vec2_direction_to_target physics))
  else if (task self =? "move_in_direction")%string then
    ret (setitem obs "target_direction" (vec2_direction_to_target physics))
  else if (task self =? "move_to_position")%string then
    ret (setitem obs "target_position" (vec3_jitterbug_to_target physics))
  else if (task self =? "move_to_pose")%string then
    let obs :=
      setitem obs "target_position" (vec3_jitterbug_to_target physics) in
    ret (setitem obs "target_direction" (vec2_direction_to_target physics))
  else
    raise (ValueError ("Invalid task " ++ task self)%string).

(** [Jitterbug.face_direction_reward(self, physics)]. *)
Definition face_direction_reward (physics : Physics) : R :=
  let angle_to_target := angle_jitterbug_to_target physics in
  2 / (Rabs angle_to_target / np.pi + 1) - 1.

(** [Jitterbug.move_to_position_reward(self, physics)]. *)
Definition move_to_position_reward (physics : Physics) : R :=
  let dist_to_target := np.linalg_norm (vec3_jitterbug_to_target physics) in
  1 / (10 * dist_to_target + 1).

(** [Jitterbug.upright_reward(self, physics)]. *)
Definition upright_reward (physics : Physics) : R :=
  py_min (py_max 0 (xmat_jitterbug_zz (data physics))) 1.

(** The variant dispatch of [get_reward]: the value of [r] when the
    [if]/[elif] chain is left, before the uprightness factor. *)
Definition get_reward_dispatch (self : Jitterbug) (physics : Physics)
  : result R :=
  if (task self =? "move_from_origin")%string then
    ret (1 - move_to_position_reward physics)
  else if (task self =? "face_direction")%string then
    ret (face_direction_reward physics)
  else if (task self =? "move_in_direction")%string then
    let max_speed_per_step := 0.3 in
    let jitterbug_vel := firstn 2 (jitterbug_velocity_xyz physics) in
    let target_vel := map (Rmult 1.0) (target_direction_vec2 physics) in
    ret (py_min
           (py_max 0.0 (np.dot jitterbug_vel target_vel) / max_speed_per_step)
           1.0)
  else if (task self =? "move_to_position")%string then
    ret (move_to_position_reward physics)
  else if (task self =? "move_to_pose")%string then
    ret (move_to_position_reward physics * face_direction_reward physics)
  else
    raise (ValueError ("Invalid task " ++ task self)%string).

(** [Jitterbug.get_reward(self, physics)]: the dispatched value, then
    [r *= self.upright_reward(physics)]. *)
Definition get_reward (self : Jitterbug) (physics : Physics) : result R :=
  bind (get_reward_dispatch self physics)
       (fun r => ret (r * upright_reward physics)).

(* ================================================================= *)
(** ** The task factories *)

Definition DEFAULT_TIME_LIMIT : R := 10.
Definition DEFAULT_CONTROL_TIMESTEP : R := 0.01.








(* ================================================================= *)
(** ** benchmarks/benchmark.py: the set-up of [train] and its callback *)

Module benchmark.





(** The agent classes the callback tells apart with [isinstance]. *)
Inductive Agent : Type := DDPG | PPO2 | SAC | TD3 | OtherAgent.

(** An entry of [ep_info_buf]: a dict with the episode's reward under ['r']
    and its length under ['l']. *)
Record EpInfo : Type := mkEpInfo {
  ep_r : R;
  ep_l : Z
}.

(** What the callback reads of the learner's local variables. *)
Record Locals : Type := mkLocals {
  locals_self : Agent;
  episode_rewards_history : list R;
  ep_info_buf : list EpInfo
}.

Inductive cb_exn : Type :=
| InvalidAlgorithm
| IndexError.

(** What one call prints and saves, when it does. *)
Record Report : Type := mkReport {
  report_num_eps : nat;
  report_elapsed_steps : Z;
  report_episode_reward : R;
  report_last5_mean : R
}.

(** [int(x)] for a float [x] that is not negative. *)
Definition int_of_float (x : R) : Z := Int_part x.

(** [np.mean] of a 1-D array. *)
Definition mean (l : list R) : R :=
  fold_right Rplus 0 l / INR (List.length l).

(** [l[-5:]]: the last five entries, all of them when there are fewer. *)
Definition last_five (l : list R) : list R := skipn (List.length l - 5) l.

(** [_cb(_locals, _globals)], with the attribute [_cb.last_num_eps] passed
    in and out (0 when the attribute is not set yet).  A call leaves the
    attribute at the value returned first and either raises or returns the
    report of the checkpoint it saved (if any) with its return value.  The
    wall clock, the printing and the saving itself are outside the model. *)
Definition cb (last_num_eps : nat) (locals : Locals)
  : nat * (cb_exn + (option Report * bool)) :=
  let extract :=
    match locals_self locals with
    | DDPG => inr (episode_rewards_history locals)
    | PPO2 => inr (map ep_r (ep_info_buf locals))
    | SAC => inr (map ep_r (ep_info_buf locals))
    | TD3 => inr (map ep_r (ep_info_buf locals))
    | OtherAgent => inl InvalidAlgorithm
    end in
  match extract with
  | inl e => (last_num_eps, inl e)
  | inr ep_r_hist =>
      let ep_size :=
        int_of_float (DEFAULT_TIME_LIMIT / DEFAULT_CONTROL_TIMESTEP) in
      let num_eps := List.length ep_r_hist in
      let elapsed_steps := (ep_size * Z.of_nat num_eps)%Z in
      if negb (num_eps =? last_num_eps)%nat then
        match ep_r_hist with
        | [] => (num_eps, inl IndexError)
        | _ :: _ =>
            (num_eps,
             inr (Some (mkReport num_eps elapsed_steps (last ep_r_hist 0)
                                 (mean (last_five ep_r_hist))),
                  true))
        end
      else (last_num_eps, inr (None, true))
  end.

(** The history of episode rewards a call works on. *)
Definition ep_r_hist (locals : Locals) : list R :=
  match locals_self locals with
  | DDPG => episode_rewards_history locals
  | _ => map ep_r (ep_info_buf locals)
  end.

End benchmark.

(* ================================================================= *)
(** ** Vocabulary of the specification *)

(** [clamp(x, lo, hi)]: [x] limited to the interval from [lo] to [hi]. *)
Definition clamp (x lo hi : R) : R := Rmin (Rmax x lo) hi.

(** The robot's planar velocity projected on the target heading:
    [jitterbug_vel @ target_direction_vec2()]. *)
Definition heading_speed (physics : Physics) : R :=
  np.dot (firstn 2 (jitterbug_velocity_xyz physics))
         (target_direction_vec2 physics).

(** The observation table of the specification: the base fields, then
    [target_position] and [target_direction] for the variants that have
    them. *)
Definition base_fields : list string :=
  [ "position"; "velocity"; "motor_position"; "motor_velocity" ]%string.

Definition has_target_position (name : string) : bool :=
  py_in name [ "move_to_position"; "move_to_pose" ]%string.

Definition has_target_direction (name : string) : bool :=
  py_in name [ "face_direction"; "move_in_direction"; "move_to_pose" ]%string.

Definition observation_fields (name : string) : list string :=
  base_fields
  ++ (if has_target_position name then [ "target_position"%string ] else [])
  ++ (if has_target_direction name then [ "target_direction"%string ] else []).

(** The five registered variants. *)
Definition valid_variant (name : string) : Prop :=
  In name [ "move_from_origin"; "face_direction"; "move_in_direction";
            "move_to_position"; "move_to_pose" ]%string.

(* ================================================================= *)
(** ** Sample states *)

(** The model as the XML leaves it before a reset: pointer visible, target
    body at the origin with the identity orientation. *)
Definition default_model : NamedModel := mkNamedModel 1 0 0 [1; 0; 0; 0].

(** A state given by the robot's root pose and planar velocity, the target's
    pose and the robot's ZZ matrix entry; the motor is at rest. *)
Definition sample_physics (root_xyz : R * R * R) (root_quat : R * R * R * R)
  (vel_xy : R * R) (target_xyz : R * R * R) (target_quat : R * R * R * R)
  (zz : R) : Physics :=
  mkPhysics
    (mkNamedData root_xyz root_quat (fst vel_xy, snd vel_xy, 0) (0, 0, 0)
                 0 0 target_xyz target_quat zz)
    default_model.

(** Robot turned by half a turn about Z, target heading along [-Y]: the
    unnormalised relative yaw is exactly [-pi]. *)
Definition physics_opposed : Physics :=
  sample_physics (0, 0, 0) (0, 0, 0, 1) (0, 0) (0, 0, 0) (1, 0, 0, -1) 1.

(** Robot orientation [(3/5, 0, 0, -4/5)], a unit quaternion about Z. *)
Definition physics_turned : Physics :=
  sample_physics (0, 0, 0) (3 / 5, 0, 0, - (4 / 5)) (0, 0) (0, 0, 0)
                 (1, 0, 0, 0) 1.

(** Robot in its reference orientation (heading [-Y], yaw [-pi / 2]) at the
    origin, target at the origin heading the same way. *)
Definition physics_aligned : Physics :=
  sample_physics (0, 0, 0) (1, 0, 0, 0) (0, 0) (0, 0, 0) (1, 0, 0, -1) 1.

(** Robot at the origin, target at distance [x] along the X axis. *)
Definition physics_at_distance (x : R) : Physics :=
  sample_physics (0, 0, 0) (1, 0, 0, 0) (0, 0) (x, 0, 0) (1, 0, 0, 0) 1.

(** A generator that always returns the same sample. *)
Definition constant_random (u : R) : np.RandomState :=
  np.mkRandomState (fun _ => u) 0.

Definition sample_task (name : string) (rs : np.RandomState) : Jitterbug :=
  mkJitterbug SUITE_tasks name rs.

(** Two resets of a [face_direction] task whose own generator is in the
    same state, while numpy's module-level generator is not. *)
Definition world_with_module_rng (np_random : np.RandomState) : World :=
  mkWorld (sample_task "face_direction" (constant_random 0)) np_random
          physics_aligned.

(* ================================================================= *)
(** * Properties *)

(** ** Python and numpy primitives *)

Lemma py_max_Rmax (a b : R) : py_max a b = Rmax a b.
Proof.
  unfold py_max, Rmax.
  destruct (Rlt_dec a b), (Rle_dec a b); lra.
Qed.

Lemma py_min_Rmin (a b : R) : py_min a b = Rmin a b.
Proof.
  unfold py_min, Rmin.
  destruct (Rlt_dec b a), (Rle_dec a b); lra.
Qed.

Lemma py_in_In (s : string) (l : list string) : py_in s l = true <-> In s l.
Proof.
  unfold py_in. rewrite existsb_exists. split.
  - intros [x [Hin Heq]]. apply String.eqb_eq in Heq. now subst.
  - intros Hin. exists s. split; [assumption | apply String.eqb_refl].
Qed.

Lemma arctan2_range (y x : R) : - PI < np.arctan2 y x <= PI.
Proof.
  unfold np.arctan2.
  pose proof PI_RGT_0 as Hpi.
  pose proof (atan_bound (y / x)) as Hb.
  destruct (Rlt_dec 0 x) as [Hx | Hx]; [lra |].
  destruct (Rlt_dec x 0) as [Hx' | Hx'].
  - destruct (Rle_dec 0 y) as [Hy | Hy].
    + assert (y / x <= 0) as Hq.
      { unfold Rdiv. replace 0 with (y * 0) by ring.
        apply Rmult_le_compat_l; [assumption |].
        left. now apply Rinv_lt_0_compat. }
      assert (atan (y / x) <= 0) as Ha.
      { rewrite <- atan_0. destruct Hq as [Hq | Hq].
        - left. now apply atan_increasing.
        - rewrite Hq. lra. }
      lra.
    + assert (0 < y / x) as Hq.
      { unfold Rdiv. replace (y * / x) with ((- y) * (- / x)) by ring.
        apply Rmult_lt_0_compat; [lra |].
        pose proof (Rinv_lt_0_compat x Hx'). lra. }
      assert (0 < atan (y / x)) as Ha.
      { rewrite <- atan_0. now apply atan_increasing. }
      lra.
  - destruct (Rlt_dec 0 y); [lra |].
    destruct (Rlt_dec y 0); lra.
Qed.

Lemma uniform_range (low high : R) (rs : np.RandomState) :
  low < high ->
  0 <= np.samples rs (np.cursor rs) < 1 ->
  low <= fst (np.uniform low high rs) < high.
Proof.
  intros Hlh [H0 H1]. unfold np.uniform, np.random_sample. simpl.
  split; nra.
Qed.

Lemma uniform_state (low high : R) (rs : np.RandomState) :
  snd (np.uniform low high rs)
  = np.mkRandomState (np.samples rs) (S (np.cursor rs)).
Proof. reflexivity. Qed.

(** ** The two normalisation loops *)

Lemma while_above_pi_mono (n m : nat) (a r : R) :
  (n <= m)%nat ->
  while_above_pi n a = Some r -> while_above_pi m a = Some r.
Proof.
  revert m a. induction n as [| n IH]; intros m a Hle H.
  - simpl in H. destruct (Rlt_dec np.pi a) as [Hgt | Hgt]; [discriminate |].
    destruct m; simpl; destruct (Rlt_dec np.pi a); congruence || contradiction.
  - destruct m as [| m]; [lia |].
    simpl in *. destruct (Rlt_dec np.pi a); [| assumption].
    apply IH; [lia | assumption].
Qed.

Lemma while_below_minus_pi_mono (n m : nat) (a r : R) :
  (n <= m)%nat ->
  while_below_minus_pi n a = Some r -> while_below_minus_pi m a = Some r.
Proof.
  revert m a. induction n as [| n IH]; intros m a Hle H.
  - simpl in H. destruct (Rle_dec a (- np.pi)) as [Hgt | Hgt]; [discriminate |].
    destruct m; simpl; destruct (Rle_dec a (- np.pi));
      congruence || contradiction.
  - destruct m as [| m]; [lia |].
    simpl in *. destruct (Rle_dec a (- np.pi)); [| assumption].
    apply IH; [lia | assumption].
Qed.

(** The first loop leaves with a value at most [pi]; it subtracts [2 pi] some
    [k] times, none when the angle is at most [pi] already, and after a
    subtraction the value is still above [-pi]. *)
Lemma while_above_pi_spec (fuel : nat) (a : R) :
  a <= PI + 2 * PI * INR fuel ->
  exists k : nat,
    while_above_pi fuel a = Some (a - 2 * PI * INR k)
    /\ a - 2 * PI * INR k <= PI
    /\ (a <= PI -> k = O)
    /\ (k <> O -> - PI < a - 2 * PI * INR k).
Proof.
  revert a. induction fuel as [| fuel IH]; intros a Hb.
  - exists O. simpl in *. unfold np.pi.
    destruct (Rlt_dec PI a) as [Hgt | Hle]; [lra |].
    replace (a - 2 * PI * 0) with a by ring.
    repeat split; try lra; congruence.
  - cbn [while_above_pi]. unfold np.pi.
    destruct (Rlt_dec PI a) as [Hgt | Hle].
    + rewrite S_INR in Hb.
      destruct (IH (a - 2 * PI)) as [k [Hk [Hle [Hz Hnz]]]]; [lra |].
      exists (S k). rewrite S_INR.
      replace (a - 2 * PI * (INR k + 1)) with (a - 2 * PI - 2 * PI * INR k)
        by ring.
      unfold np.pi in Hk. repeat split; try assumption; try lra.
      intros _. destruct k as [| k'].
      * simpl. lra.
      * apply Hnz. discriminate.
    + exists O. simpl. replace (a - 2 * PI * 0) with a by ring.
      repeat split; try lra; congruence.
Qed.

(** The second loop leaves with a value above [-pi]; it adds [2 pi] some [k]
    times, none when the angle is above [-pi] already, and after an addition
    the value is at most [pi]. *)
Lemma while_below_minus_pi_spec (fuel : nat) (a : R) :
  - PI - 2 * PI * INR fuel < a ->
  exists k : nat,
    while_below_minus_pi fuel a = Some (a + 2 * PI * INR k)
    /\ - PI < a + 2 * PI * INR k
    /\ (- PI < a -> k = O)
    /\ (k <> O -> a + 2 * PI * INR k <= PI).
Proof.
  revert a. induction fuel as [| fuel IH]; intros a Hb.
  - exists O. simpl in *. unfold np.pi.
    destruct (Rle_dec a (- PI)) as [Hle | Hgt]; [lra |].
    replace (a + 2 * PI * 0) with a by ring.
    repeat split; try lra; congruence.
  - cbn [while_below_minus_pi]. unfold np.pi.
    destruct (Rle_dec a (- PI)) as [Hle | Hgt].
    + rewrite S_INR in Hb.
      destruct (IH (a + 2 * PI)) as [k [Hk [Hlt [Hz Hnz]]]]; [lra |].
      exists (S k). rewrite S_INR.
      replace (a + 2 * PI * (INR k + 1)) with (a + 2 * PI + 2 * PI * INR k)
        by ring.
      unfold np.pi in Hk. repeat split; try assumption; try lra.
      intros _. destruct k as [| k'].
      * simpl. lra.
      * apply Hnz. discriminate.
    + exists O. simpl. replace (a + 2 * PI * 0) with a by ring.
      repeat split; try lra; congruence.
Qed.

Lemma wrap_budget_enough (a : R) : Rabs a < 2 * PI * INR (wrap_budget a).
Proof.
  unfold wrap_budget, np.pi.
  pose proof PI_RGT_0 as Hpi.
  set (x := Rabs a / (2 * PI)).
  assert (0 <= x) as Hx.
  { unfold x. apply Rmult_le_pos; [apply Rabs_pos |].
    left. apply Rinv_0_lt_compat. lra. }
  destruct (archimed x) as [Hup _].
  assert (0 < up x)%Z as Hpos by (apply lt_IZR; lra).
  rewrite INR_IZR_INZ, Z2Nat.id by lia.
  assert (Rabs a = 2 * PI * x) as ->.
  { unfold x. field. lra. }
  apply Rmult_lt_compat_l; lra.
Qed.

Lemma INR_two_le (k : nat) : 2 <= INR (S (S k)).
Proof. rewrite !S_INR. pose proof (pos_INR k). lra. Qed.

(** Both loops in sequence, with enough fuel for each. *)
Lemma wrap_angle_fuel_spec (fuel : nat) (a : R) :
  Rabs a < PI + 2 * PI * INR fuel ->
  exists kd ku : nat,
    wrap_angle_fuel fuel a = Some (a - 2 * PI * INR kd + 2 * PI * INR ku)
    /\ - PI < a - 2 * PI * INR kd + 2 * PI * INR ku <= PI
    /\ (a <= PI -> kd = O)
    /\ (- PI < a -> ku = O).
Proof.
  intros Hb.
  assert (- (PI + 2 * PI * INR fuel) < a < PI + 2 * PI * INR fuel)
    as [Hlo Hhi] by (apply Rabs_def2 in Hb; lra).
  destruct (while_above_pi_spec fuel a) as [kd [Hd [Hdle [Hdz Hdnz]]]];
    [lra |].
  assert (- PI - 2 * PI * INR fuel < a - 2 * PI * INR kd) as Hb2.
  { destruct kd as [| kd'].
    - simpl. lra.
    - pose proof (pos_INR fuel). pose proof PI_RGT_0.
      assert (- PI < a - 2 * PI * INR (S kd')) by (apply Hdnz; discriminate).
      nra. }
  destruct (while_below_minus_pi_spec fuel (a - 2 * PI * INR kd))
    as [ku [Hu [Hult [Huz Hunz]]]]; [exact Hb2 |].
  exists kd, ku. unfold wrap_angle_fuel. rewrite Hd, Hu.
  split; [reflexivity |].
  split; [| split].
  - split; [exact Hult |].
    destruct ku as [| ku'].
    + simpl. lra.
    + apply Hunz. discriminate.
  - exact Hdz.
  - intros Ha. apply Huz. destruct kd as [| kd'].
    + simpl. lra.
    + apply Hdnz. discriminate.
Qed.

Lemma wrap_angle_fuel_mono (n m : nat) (a r : R) :
  (n <= m)%nat -> wrap_angle_fuel n a = Some r -> wrap_angle_fuel m a = Some r.
Proof.
  unfold wrap_angle_fuel. intros Hle H.
  destruct (while_above_pi n a) as [a' |] eqn:Ha; [| discriminate].
  rewrite (while_above_pi_mono n m a a' Hle Ha).
  now apply (while_below_minus_pi_mono n m).
Qed.

(** The loops return under the computed budget, hence under any larger one,
    and [wrap_angle] is what they return. *)
Lemma wrap_angle_returns (a : R) :
  exists kd ku : nat,
    (forall fuel, (wrap_budget a <= fuel)%nat ->
                  wrap_angle_fuel fuel a = Some (wrap_angle a))
    /\ wrap_angle a = a - 2 * PI * INR kd + 2 * PI * INR ku
    /\ - PI < wrap_angle a <= PI
    /\ (a <= PI -> kd = O)
    /\ (- PI < a -> ku = O).
Proof.
  pose proof (wrap_budget_enough a) as Hb. pose proof PI_RGT_0 as Hpi.
  destruct (wrap_angle_fuel_spec (wrap_budget a) a)
    as [kd [ku [Hw [Hr [Hd Hu]]]]]; [lra |].
  exists kd, ku.
  assert (wrap_angle a = a - 2 * PI * INR kd + 2 * PI * INR ku) as Heq.
  { unfold wrap_angle. now rewrite Hw. }
  rewrite Heq. repeat split; try tauto.
  intros fuel Hle. now apply (wrap_angle_fuel_mono (wrap_budget a)).
Qed.

(** Two angles of [(-pi, pi]] that differ by a whole number of turns are
    equal: the normal form is unique. *)
Lemma wrapped_unique (a r1 r2 : R) (z1 z2 : Z) :
  r1 = a + 2 * PI * IZR z1 -> r2 = a + 2 * PI * IZR z2 ->
  - PI < r1 <= PI -> - PI < r2 <= PI -> r1 = r2.
Proof.
  intros H1 H2 Hr1 Hr2. pose proof PI_RGT_0 as Hpi.
  assert (r1 - r2 = 2 * PI * IZR (z1 - z2)) as Hd.
  { rewrite minus_IZR. lra. }
  assert (-1 < IZR (z1 - z2) < 1) as [Hlo Hhi] by (split; nra).
  apply lt_IZR in Hlo. apply lt_IZR in Hhi.
  assert (z1 - z2 = 0)%Z as Hz by lia.
  rewrite Hz in Hd. lra.
Qed.

(** ** Yaw extraction *)

Ltac decide_order :=
  repeat match goal with
    | |- context [Rlt_dec ?a ?b] => destruct (Rlt_dec a b); try lra
    | |- context [Rle_dec ?a ?b] => destruct (Rle_dec a b); try lra
    end.


(** The robot's yaw is the planar heading of its rotation matrix less a
    quarter turn, so it ranges over [(-3 pi / 2, pi / 2]]. *)
Lemma jitterbug_direction_yaw_range (physics : Physics) :
  jitterbug_direction_yaw physics
  = np.arctan2
      (mat_at (mjlib.mju_quat2Mat (jitterbug_position_quat physics)) 1 0)
      (mat_at (mjlib.mju_quat2Mat (jitterbug_position_quat physics)) 0 0)
    - PI / 2
  /\ - (3 * PI / 2) < jitterbug_direction_yaw physics <= PI / 2.
Proof.
  unfold jitterbug_direction_yaw, np.pi. split; [reflexivity |].
  match goal with |- context [np.arctan2 ?y ?x] =>
    pose proof (arctan2_range y x) end.
  lra.
Qed.

Lemma physics_turned_yaw :
  jitterbug_direction_yaw physics_turned = atan (24 / 7) - PI - PI / 2.
Proof.
  unfold jitterbug_direction_yaw, physics_turned, sample_physics,
    jitterbug_position_quat, jitterbug_position, qpos_root, mat_at,
    mjlib.mju_quat2Mat, np.arctan2, np.pi.
  cbn [data qpos_root_xyz qpos_root_quat arr3 arr4 app skipn nth
       Nat.mul Nat.add].
  decide_order.
  replace (2 * (0 * 0 + 3 / 5 * - (4 / 5))
           / (3 / 5 * (3 / 5) + 0 * 0 - 0 * 0 - - (4 / 5) * - (4 / 5)))
    with (24 / 7) by field.
  reflexivity.
Qed.

(** C4, evaluated at the orientation [(3/5, 0, 0, -4/5)]: the returned yaw is
    [atan2(-24/25, -7/25) - pi/2], which lies strictly below [-pi], outside
    the range the docstring of [jitterbug_direction_yaw] announces. *)
Theorem jitterbug_direction_yaw_leaves_range :
  jitterbug_direction_yaw physics_turned
  = np.arctan2 (- (24 / 25)) (- (7 / 25)) - PI / 2
  /\ jitterbug_direction_yaw physics_turned < - PI.
Proof.
  rewrite physics_turned_yaw. split.
  - unfold np.arctan2. decide_order.
    replace (- (24 / 25) / - (7 / 25)) with (24 / 7) by field.
    reflexivity.
  - pose proof (atan_bound (24 / 7)). lra.
Qed.

Lemma physics_opposed_yaws :
  target_direction_yaw physics_opposed = - (PI / 2)
  /\ jitterbug_direction_yaw physics_opposed = PI / 2.
Proof.
  split.
  - unfold target_direction_yaw, physics_opposed, sample_physics,
      target_position_quat, mat_at, mjlib.mju_quat2Mat, np.arctan2.
    cbn [data xquat_target arr4 nth Nat.mul Nat.add].
    decide_order.
  - unfold jitterbug_direction_yaw, physics_opposed, sample_physics,
      jitterbug_position_quat, jitterbug_position, qpos_root, mat_at,
      mjlib.mju_quat2Mat, np.arctan2, np.pi.
    cbn [data qpos_root_xyz qpos_root_quat arr3 arr4 app skipn nth
         Nat.mul Nat.add].
    decide_order.
    replace (2 * (0 * 0 + 0 * 1) / (0 * 0 + 0 * 0 - 0 * 0 - 1 * 1))
      with 0 by field.
    rewrite atan_0. lra.
Qed.

Lemma physics_aligned_yaws :
  target_direction_yaw physics_aligned = - (PI / 2)
  /\ jitterbug_direction_yaw physics_aligned = - (PI / 2).
Proof.
  split.
  - unfold target_direction_yaw, physics_aligned, sample_physics,
      target_position_quat, mat_at, mjlib.mju_quat2Mat, np.arctan2.
    cbn [data xquat_target arr4 nth Nat.mul Nat.add].
    decide_order.
  - unfold jitterbug_direction_yaw, physics_aligned, sample_physics,
      jitterbug_position_quat, jitterbug_position, qpos_root, mat_at,
      mjlib.mju_quat2Mat, np.arctan2, np.pi.
    cbn [data qpos_root_xyz qpos_root_quat arr3 arr4 app skipn nth
         Nat.mul Nat.add].
    decide_order.
    replace (2 * (0 * 0 + 1 * 0) / (1 * 1 + 0 * 0 - 0 * 0 - 0 * 0))
      with 0 by field.
    rewrite atan_0. lra.
Qed.

(** ** Relative yaw *)

Lemma physics_opposed_angle : angle_jitterbug_to_target physics_opposed = PI.
Proof.
  destruct physics_opposed_yaws as [Ht Hj].
  unfold angle_jitterbug_to_target. rewrite Ht, Hj.
  replace (- (PI / 2) - PI / 2) with (- PI) by field.
  destruct (wrap_angle_returns (- PI)) as [kd [ku [_ [Heq [Hr [Hd _]]]]]].
  pose proof PI_RGT_0 as Hpos.
  assert (kd = O) as -> by (apply Hd; lra).
  rewrite Heq in Hr |- *. simpl in *.
  destruct ku as [| [| ku]].
  - simpl in Hr. lra.
  - simpl. lra.
  - pose proof (INR_two_le ku). nra.
Qed.

Lemma physics_aligned_angle : angle_jitterbug_to_target physics_aligned = 0.
Proof.
  destruct physics_aligned_yaws as [Ht Hj].
  unfold angle_jitterbug_to_target. rewrite Ht, Hj.
  replace (- (PI / 2) - - (PI / 2)) with 0 by ring.
  destruct (wrap_angle_returns 0) as [kd [ku [_ [Heq [_ [Hd Hu]]]]]].
  pose proof PI_RGT_0.
  rewrite Heq, Hd, Hu by lra. simpl. lra.
Qed.


(** C3: the relative yaw is the difference of the two yaws moved by whole
    turns into [(-pi, pi]]: the loops return (with any budget from
    [wrap_budget] on), a difference above [pi] only goes down, one at or below
    [-pi] only goes up, one already inside is returned as it is, and [-pi] is
    returned as [pi]; the value returned is the only one in [(-pi, pi]] that
    differs from the difference by whole turns. *)
Theorem angle_jitterbug_to_target_normalised :
  forall target_yaw jitterbug_yaw : R,
    let d := target_yaw - jitterbug_yaw in
    let r := wrap_angle d in
    (forall physics : Physics,
        target_direction_yaw physics = target_yaw ->
        jitterbug_direction_yaw physics = jitterbug_yaw ->
        angle_jitterbug_to_target physics = r
        /\ forall fuel, (wrap_budget d <= fuel)%nat ->
                        angle_jitterbug_to_target_fuel fuel physics = Some r)
    /\ (forall fuel, (wrap_budget d <= fuel)%nat ->
                     wrap_angle_fuel fuel d = Some r)
    /\ - PI < r <= PI
    /\ (exists kd ku : nat, r = d - 2 * PI * INR kd + 2 * PI * INR ku
                            /\ (d <= PI -> kd = O) /\ (- PI < d -> ku = O))
    /\ (forall (r' : R) (turns : Z),
          r' = d + 2 * PI * IZR turns -> - PI < r' <= PI -> r' = r)
    /\ (- PI < d <= PI -> r = d)
    /\ (d = - PI -> r = PI).
Proof.
  intros target_yaw jitterbug_yaw d r.
  destruct (wrap_angle_returns d) as [kd [ku [Hfuel [Heq [Hr [Hd Hu]]]]]].
  fold r in Hfuel, Heq, Hr.
  split; [| split; [exact Hfuel | split; [exact Hr |
                                          split; [| split; [| split]]]]].
  - intros physics Ht Hj.
    unfold angle_jitterbug_to_target, angle_jitterbug_to_target_fuel.
    rewrite Ht, Hj. fold d. split; [reflexivity | exact Hfuel].
  - exists kd, ku. auto.
  - intros r' turns Hr' Hrange.
    apply (wrapped_unique d r' r turns (Z.of_nat ku - Z.of_nat kd));
      try assumption.
    rewrite Heq, minus_IZR, <- !INR_IZR_INZ. ring.
  - intros [Hlo Hhi]. rewrite Heq, (Hd Hhi), (Hu Hlo). simpl. lra.
  - intros Hpi. pose proof PI_RGT_0 as Hpos.
    assert (kd = O) as -> by (apply Hd; lra).
    rewrite Heq in Hr |- *. simpl in *.
    destruct ku as [| [| ku]].
    + simpl in Hr. lra.
    + simpl. lra.
    + pose proof (INR_two_le ku). nra.
Qed.

(** The boundary case on a state: the robot has yaw [pi / 2], the target
    [-pi / 2], and the relative yaw returned is [pi]. *)
Lemma angle_jitterbug_to_target_opposed :
  target_direction_yaw physics_opposed - jitterbug_direction_yaw physics_opposed
  = - PI
  /\ angle_jitterbug_to_target physics_opposed = PI.
Proof.
  destruct physics_opposed_yaws as [Ht Hj].
  assert (target_direction_yaw physics_opposed
          - jitterbug_direction_yaw physics_opposed = - PI) as Hd
    by (rewrite Ht, Hj; lra).
  split; [exact Hd |].
  destruct (angle_jitterbug_to_target_normalised (- (PI / 2)) (PI / 2))
    as [Hphys [_ [_ [_ [_ [_ Hpi]]]]]].
  destruct (Hphys physics_opposed Ht Hj) as [-> _].
  apply Hpi. lra.
Defined.

(** ** Reward terms *)

(** The facing term as a function of the relative yaw. *)
Lemma facing_formula_bounds (a : R) :
  Rabs a <= PI -> 0 <= 2 / (Rabs a / PI + 1) - 1 <= 1.
Proof.
  intros Ha. pose proof PI_RGT_0 as Hpi. pose proof (Rabs_pos a) as Hp.
  assert (0 <= Rabs a / PI <= 1) as [Hx0 Hx1].
  { split.
    - apply Rmult_le_pos; [assumption | left; now apply Rinv_0_lt_compat].
    - apply (Rmult_le_reg_r PI); [assumption |].
      unfold Rdiv. rewrite Rmult_assoc, Rinv_l by lra. lra. }
  set (x := Rabs a / PI) in *.
  replace (2 / (x + 1) - 1) with ((1 - x) / (x + 1)) by (field; lra).
  split.
  - apply Rmult_le_pos; [lra | left; apply Rinv_0_lt_compat; lra].
  - apply (Rmult_le_reg_r (x + 1)); [lra |].
    unfold Rdiv. rewrite Rmult_assoc, Rinv_l by lra. lra.
Qed.

Lemma facing_formula_decreasing (a b : R) :
  Rabs a < Rabs b ->
  2 / (Rabs b / PI + 1) - 1 < 2 / (Rabs a / PI + 1) - 1.
Proof.
  intros Hab. pose proof PI_RGT_0 as Hpi. pose proof (Rabs_pos a) as Hp.
  assert (0 <= Rabs a / PI) as Hx.
  { apply Rmult_le_pos; [assumption | left; now apply Rinv_0_lt_compat]. }
  assert (Rabs a / PI < Rabs b / PI) as Hlt.
  { apply Rmult_lt_compat_r; [now apply Rinv_0_lt_compat | assumption]. }
  assert (/ (Rabs b / PI + 1) < / (Rabs a / PI + 1)) as Hinv.
  { apply Rinv_lt_contravar; [| lra].
    apply Rmult_lt_0_compat; lra. }
  unfold Rdiv at 1 3. lra.
Qed.

(** C5: the facing reward is [2 / (|relative yaw| / pi + 1) - 1]; it lies in
    [[0, 1]], is 1 at relative yaw 0, is 0 at relative yaw of magnitude [pi],
    and decreases as the magnitude of the relative yaw grows. *)
Theorem face_direction_reward_shape :
  forall physics : Physics,
    let a := angle_jitterbug_to_target physics in
    face_direction_reward physics = 2 / (Rabs a / PI + 1) - 1
    /\ 0 <= face_direction_reward physics <= 1
    /\ (a = 0 -> face_direction_reward physics = 1)
    /\ (Rabs a = PI -> face_direction_reward physics = 0)
    /\ (forall physics' : Physics,
          Rabs a < Rabs (angle_jitterbug_to_target physics') ->
          face_direction_reward physics' < face_direction_reward physics)
    /\ (forall physics' : Physics,
          Rabs a <= Rabs (angle_jitterbug_to_target physics') ->
          face_direction_reward physics' <= face_direction_reward physics).
Proof.
  intros physics a. pose proof PI_RGT_0 as Hpi.
  unfold face_direction_reward, np.pi. fold a.
  split; [reflexivity |].
  split.
  { apply facing_formula_bounds.
    destruct (wrap_angle_returns
                (target_direction_yaw physics - jitterbug_direction_yaw physics))
      as [kd [ku [_ [_ [Hr _]]]]].
    unfold a, angle_jitterbug_to_target.
    apply Rabs_le. lra. }
  split.
  { intros ->. rewrite Rabs_R0. field. lra. }
  split.
  { intros ->. field. lra. }
  split.
  - intros physics' Hlt. now apply facing_formula_decreasing.
  - intros physics' [Hlt | Heq].
    + left. now apply facing_formula_decreasing.
    + right. now rewrite Heq.
Qed.

(** The facing reward on two states: 1 when the robot faces the target
    heading, 0 when it faces the opposite way. *)
Lemma face_direction_reward_examples :
  face_direction_reward physics_aligned = 1
  /\ face_direction_reward physics_opposed = 0.
Proof.
  split.
  - apply (face_direction_reward_shape physics_aligned).
    exact physics_aligned_angle.
  - apply (face_direction_reward_shape physics_opposed).
    rewrite physics_opposed_angle.
    apply Rabs_right. left. exact PI_RGT_0.
Defined.

(** The distance the position term uses is the Euclidean distance between
    the target geom and the robot's root. *)
Lemma dist_to_target_euclidean (physics : Physics) :
  forall jx jy jz tx ty tz : R,
    qpos_root_xyz (data physics) = (jx, jy, jz) ->
    geom_xpos_target (data physics) = (tx, ty, tz) ->
    np.linalg_norm (vec3_jitterbug_to_target physics)
    = sqrt ((tx - jx) * (tx - jx) + (ty - jy) * (ty - jy)
            + (tz - jz) * (tz - jz)).
Proof.
  intros jx jy jz tx ty tz Hj Ht.
  unfold np.linalg_norm, vec3_jitterbug_to_target, np.sub,
    target_position_xyz, jitterbug_position_xyz, jitterbug_position, qpos_root.
  rewrite Hj, Ht. destruct (qpos_root_quat (data physics)) as [[[w x] y] z].
  simpl. f_equal. ring.
Qed.

Lemma dist_to_target_nonneg (physics : Physics) :
  0 <= np.linalg_norm (vec3_jitterbug_to_target physics).
Proof. apply sqrt_pos. Qed.

Lemma dist_at_distance (x : R) :
  0 <= x ->
  np.linalg_norm (vec3_jitterbug_to_target (physics_at_distance x)) = x.
Proof.
  intros Hx.
  rewrite (dist_to_target_euclidean _ 0 0 0 x 0 0) by reflexivity.
  replace ((x - 0) * (x - 0) + (0 - 0) * (0 - 0) + (0 - 0) * (0 - 0))
    with (x * x) by ring.
  now apply sqrt_square.
Qed.

(** C6: the position reward is [1 / (10 * distance + 1)]; it lies in
    [(0, 1]], is 1 at distance 0 (in particular when robot and target
    coincide), strictly decreases with the distance and falls below every
    positive bound once the distance is large enough. *)
Theorem move_to_position_reward_shape :
  (forall physics : Physics,
      let dist := np.linalg_norm (vec3_jitterbug_to_target physics) in
      move_to_position_reward physics = 1 / (10 * dist + 1)
      /\ 0 < move_to_position_reward physics <= 1
      /\ (dist = 0 -> move_to_position_reward physics = 1)
      /\ (qpos_root_xyz (data physics) = geom_xpos_target (data physics) ->
          dist = 0))
  /\ (forall physics physics' : Physics,
        np.linalg_norm (vec3_jitterbug_to_target physics)
        < np.linalg_norm (vec3_jitterbug_to_target physics') ->
        move_to_position_reward physics' < move_to_position_reward physics)
  /\ (forall eps : R, 0 < eps ->
        exists bound : R,
          forall physics : Physics,
            bound < np.linalg_norm (vec3_jitterbug_to_target physics) ->
            move_to_position_reward physics < eps).
Proof.
  split; [| split].
  - intros physics dist. pose proof (dist_to_target_nonneg physics) as Hd.
    fold dist in Hd. unfold move_to_position_reward. fold dist.
    split; [reflexivity |].
    split; [| split].
    + unfold Rdiv. rewrite Rmult_1_l. split.
      * apply Rinv_0_lt_compat. lra.
      * rewrite <- Rinv_1 at 2. apply Rinv_le_contravar; lra.
    + intros ->. field.
    + intros Heq. unfold dist.
      destruct (qpos_root_xyz (data physics)) as [[jx jy] jz] eqn:Hj.
      rewrite (dist_to_target_euclidean physics jx jy jz jx jy jz Hj)
        by (now rewrite <- Heq).
      replace ((jx - jx) * (jx - jx) + (jy - jy) * (jy - jy)
               + (jz - jz) * (jz - jz)) with 0 by ring.
      apply sqrt_0.
  - intros physics physics' Hlt.
    pose proof (dist_to_target_nonneg physics) as Hd.
    unfold move_to_position_reward, Rdiv. rewrite !Rmult_1_l.
    apply Rinv_lt_contravar; [| lra].
    apply Rmult_lt_0_compat; lra.
  - intros eps Heps. exists (/ eps). intros physics Hb.
    pose proof (dist_to_target_nonneg physics) as Hd.
    pose proof (Rinv_0_lt_compat eps Heps) as Hinv.
    unfold move_to_position_reward, Rdiv. rewrite Rmult_1_l.
    set (dist := np.linalg_norm (vec3_jitterbug_to_target physics)) in *.
    assert (1 < eps * dist) as Hprod.
    { replace 1 with (eps * / eps) by (field; lra).
      apply Rmult_lt_compat_l; assumption. }
    apply (Rmult_lt_reg_r (10 * dist + 1)); [lra |].
    rewrite Rinv_l by lra. nra.
Qed.

(** The position reward on sample states: 1 on the target, [1 / 11] at
    distance 1, and below [1 / 100] from distance 100 on. *)
Lemma move_to_position_reward_examples :
  move_to_position_reward (physics_at_distance 0) = 1
  /\ move_to_position_reward (physics_at_distance 1) = 1 / 11
  /\ move_to_position_reward (physics_at_distance 2)
     < move_to_position_reward (physics_at_distance 1)
  /\ exists bound : R,
       forall physics : Physics,
         bound < np.linalg_norm (vec3_jitterbug_to_target physics) ->
         move_to_position_reward physics < 1 / 100.
Proof.
  destruct move_to_position_reward_shape as [Hpoint [Hmono Hlim]].
  split; [| split; [| split]].
  - apply (Hpoint (physics_at_distance 0)). apply dist_at_distance. lra.
  - destruct (Hpoint (physics_at_distance 1)) as [-> _].
    rewrite dist_at_distance by lra. field.
  - apply Hmono. rewrite !dist_at_distance by lra. lra.
  - apply Hlim. lra.
Defined.

Lemma clamp_unit_cases (x : R) :
  (x <= 0 -> clamp x 0 1 = 0)
  /\ (1 <= x -> clamp x 0 1 = 1)
  /\ (0 <= x <= 1 -> clamp x 0 1 = x)
  /\ 0 <= clamp x 0 1 <= 1.
Proof.
  unfold clamp, Rmin, Rmax.
  repeat split; intros;
    destruct (Rle_dec x 0); destruct (Rle_dec 0 1);
    try destruct (Rle_dec x 1); lra.
Qed.

Lemma upright_reward_clamp (physics : Physics) :
  upright_reward physics = clamp (xmat_jitterbug_zz (data physics)) 0 1.
Proof.
  unfold upright_reward, clamp.
  now rewrite py_min_Rmin, py_max_Rmax, Rmax_comm.
Qed.

Lemma heading_speed_coordinates (physics : Physics) (vx vy vz : R) :
  qvel_root_xyz (data physics) = (vx, vy, vz) ->
  heading_speed physics
  = vx * cos (target_direction_yaw physics)
    + vy * sin (target_direction_yaw physics).
Proof.
  intros Hv.
  unfold heading_speed, np.dot, jitterbug_velocity_xyz, jitterbug_velocity,
    qvel_root, target_direction_vec2.
  rewrite Hv. destruct (qvel_root_rpy (data physics)) as [[a b] c].
  simpl. ring.
Qed.

(** The inline expression of the [move_in_direction] branch. *)
Lemma move_in_direction_dispatch
  (names : list string) (rs : np.RandomState) (physics : Physics) :
  get_reward_dispatch (mkJitterbug names "move_in_direction" rs) physics
  = ret (clamp (Rmax 0 (heading_speed physics) / 0.3) 0 1).
Proof.
  unfold get_reward_dispatch. cbn [task].
  change ("move_in_direction" =? "move_from_origin")%string with false.
  change ("move_in_direction" =? "face_direction")%string with false.
  change ("move_in_direction" =? "move_in_direction")%string with true.
  cbv iota. f_equal.
  assert (np.dot (firstn 2 (jitterbug_velocity_xyz physics))
                 (map (Rmult 1.0) (target_direction_vec2 physics))
          = heading_speed physics) as ->.
  { unfold heading_speed, np.dot, target_direction_vec2. 
    destruct (firstn 2 (jitterbug_velocity_xyz physics)) as [| a [| b l]];
      simpl; lra. }
  rewrite py_min_Rmin, py_max_Rmax. unfold clamp.
  replace 0.0 with 0 by lra. replace 1.0 with 1 by lra.
  rewrite (Rmax_left _ 0); [reflexivity |].
  apply Rmult_le_pos; [apply Rmax_l | lra].
Qed.

(** C7: in the [move_in_direction] variant the dispatched reward is
    [clamp(max(0, v . h) / 0.3, 0, 1)] for the planar velocity [v] and the
    target heading [h]: 0 when the projection is not positive, 1 when it is
    at least 0.3, the projection over 0.3 in between. *)
Theorem move_in_direction_reward_shape :
  forall (names : list string) (rs : np.RandomState) (physics : Physics),
    let self := mkJitterbug names "move_in_direction" rs in
    let p := heading_speed physics in
    get_reward_dispatch self physics = ret (clamp (Rmax 0 p / 0.3) 0 1)
    /\ (forall vx vy vz : R,
          qvel_root_xyz (data physics) = (vx, vy, vz) ->
          p = vx * cos (target_direction_yaw physics)
              + vy * sin (target_direction_yaw physics))
    /\ (p <= 0 -> get_reward_dispatch self physics = ret 0)
    /\ (0.3 <= p -> get_reward_dispatch self physics = ret 1.0)
    /\ (0 <= p <= 0.3 -> get_reward_dispatch self physics = ret (p / 0.3)).
Proof.
  intros names rs physics self p. unfold self.
  rewrite move_in_direction_dispatch. fold p.
  destruct (clamp_unit_cases (Rmax 0 p / 0.3)) as [H0 [H1 [Hmid _]]].
  split; [reflexivity |].
  split; [intros vx vy vz; apply heading_speed_coordinates |].
  split; [| split].
  - intros Hp. f_equal. apply H0.
    rewrite Rmax_left by assumption. lra.
  - intros Hp. f_equal. rewrite H1; [lra |].
    rewrite Rmax_right by lra. lra.
  - intros [Hlo Hhi]. f_equal.
    rewrite Hmid; rewrite Rmax_right by assumption; [reflexivity | lra].
Qed.

(** The reward on sample velocities, the target heading along [+X]: full
    reward at speed 0.6, none when moving backwards, half at speed 0.15. *)
Lemma move_in_direction_reward_examples :
  let self := sample_task "move_in_direction" (constant_random 0) in
  let moving vx :=
    sample_physics (0, 0, 0) (1, 0, 0, 0) (vx, 0) (0, 0, 0) (1, 0, 0, 0) 1 in
  get_reward_dispatch self (moving 0.6) = ret 1.0
  /\ get_reward_dispatch self (moving (-1)) = ret 0
  /\ get_reward_dispatch self (moving 0.15) = ret (0.15 / 0.3).
Proof.
  intros self moving.
  assert (forall vx, heading_speed (moving vx) = vx) as Hp.
  { intros vx.
    rewrite (heading_speed_coordinates (moving vx) vx 0 0) by reflexivity.
    assert (target_direction_yaw (moving vx) = 0) as ->.
    { unfold target_direction_yaw, moving, sample_physics,
        target_position_quat, mat_at, mjlib.mju_quat2Mat, np.arctan2.
      cbn [data xquat_target arr4 nth Nat.mul Nat.add].
      decide_order.
      replace (2 * (0 * 0 + 1 * 0) / (1 * 1 + 0 * 0 - 0 * 0 - 0 * 0))
        with 0 by field.
      apply atan_0. }
    rewrite cos_0, sin_0. ring. }
  split; [| split].
  - apply (move_in_direction_reward_shape SUITE_tasks (constant_random 0)
             (moving 0.6)).
    rewrite Hp. lra.
  - apply (move_in_direction_reward_shape SUITE_tasks (constant_random 0)
             (moving (-1))).
    rewrite Hp. lra.
  - rewrite <- (Hp 0.15) at 2.
    apply (move_in_direction_reward_shape SUITE_tasks (constant_random 0)
             (moving 0.15)).
    rewrite Hp. lra.
Defined.

(** ** The complete reward *)

Ltac eval_task_tests :=
  repeat match goal with
    | |- context [String.eqb ?a ?b] =>
        let v := eval vm_compute in (String.eqb a b) in
        change (String.eqb a b) with v
    end;
  cbv iota.

(** C2: for each of the five variants [get_reward] returns the variant's base
    reward times the uprightness factor, the factor being applied to whatever
    the dispatch produced; the factor is the ZZ entry clamped to [[0, 1]]
    (1 for a raw 1.5, 0 for a raw -0.5). *)
Theorem get_reward_gated_by_uprightness :
  forall (names : list string) (rs : np.RandomState) (physics : Physics),
    let zz := xmat_jitterbug_zz (data physics) in
    let upright := upright_reward physics in
    let position := move_to_position_reward physics in
    let facing := face_direction_reward physics in
    let moving := clamp (Rmax 0 (heading_speed physics) / 0.3) 0 1 in
    upright = clamp zz 0 1
    /\ 0 <= upright <= 1
    /\ (zz = 1.5 -> upright = 1.0)
    /\ (zz = -0.5 -> upright = 0.0)
    /\ (forall self : Jitterbug,
          get_reward self physics
          = match get_reward_dispatch self physics with
            | inl e => inl e
            | inr base => inr (base * upright)
            end)
    /\ get_reward (mkJitterbug names "move_from_origin" rs) physics
       = ret ((1 - position) * upright)
    /\ get_reward (mkJitterbug names "face_direction" rs) physics
       = ret (facing * upright)
    /\ get_reward (mkJitterbug names "move_in_direction" rs) physics
       = ret (moving * upright)
    /\ get_reward (mkJitterbug names "move_to_position" rs) physics
       = ret (position * upright)
    /\ get_reward (mkJitterbug names "move_to_pose" rs) physics
       = ret (position * facing * upright).
Proof.
  intros names rs physics zz upright position facing moving.
  assert (upright = clamp zz 0 1) as Hup by apply upright_reward_clamp.
  destruct (clamp_unit_cases zz) as [_ [H1 [_ Hrange]]].
  split; [exact Hup |].
  split; [rewrite Hup; exact Hrange |].
  split; [intros Hzz; rewrite Hup, H1; lra |].
  split.
  { intros Hzz. rewrite Hup.
    destruct (clamp_unit_cases zz) as [H0 _]. rewrite H0; lra. }
  split; [reflexivity |].
  split; [| split; [| split; [| split]]].
  - unfold get_reward, get_reward_dispatch. cbn [task]. eval_task_tests.
    reflexivity.
  - unfold get_reward, get_reward_dispatch. cbn [task]. eval_task_tests.
    reflexivity.
  - unfold get_reward. rewrite move_in_direction_dispatch. reflexivity.
  - unfold get_reward, get_reward_dispatch. cbn [task]. eval_task_tests.
    reflexivity.
  - unfold get_reward, get_reward_dispatch. cbn [task]. eval_task_tests.
    reflexivity.
Qed.

(** The end-to-end scenarios of the specification: facing the target heading
    in [face_direction], and sitting on the target in [move_to_position], the
    reward is the uprightness factor alone; a robot tipped past the
    horizontal earns nothing. *)
Lemma get_reward_examples :
  get_reward (sample_task "face_direction" (constant_random 0)) physics_aligned
  = ret (1 * upright_reward physics_aligned)
  /\ get_reward (sample_task "move_to_position" (constant_random 0))
                (physics_at_distance 0)
     = ret (1 * upright_reward (physics_at_distance 0))
  /\ upright_reward
       (sample_physics (0, 0, 0) (1, 0, 0, 0) (0, 0) (0, 0, 0) (1, 0, 0, 0)
                       (-0.5))
     = 0.0.
Proof.
  unfold sample_task.
  split; [| split].
  - destruct (get_reward_gated_by_uprightness SUITE_tasks (constant_random 0)
                physics_aligned) as [_ [_ [_ [_ [_ [_ [-> _]]]]]]].
    unfold face_direction_reward. rewrite physics_aligned_angle, Rabs_R0.
    unfold np.pi. pose proof PI_RGT_0.
    do 2 f_equal. field. lra.
  - destruct (get_reward_gated_by_uprightness SUITE_tasks (constant_random 0)
                (physics_at_distance 0)) as [_ [_ [_ [_ [_ [_ [_ [_ [-> _]]]]]]]]].
    unfold move_to_position_reward. rewrite dist_at_distance by lra.
    do 2 f_equal. field.
  - apply (get_reward_gated_by_uprightness SUITE_tasks (constant_random 0)).
    reflexivity.
Defined.

(** ** Observations *)

Lemma valid_variant_cases (name : string) :
  valid_variant name ->
  name = "move_from_origin"%string \/ name = "face_direction"%string
  \/ name = "move_in_direction"%string \/ name = "move_to_position"%string
  \/ name = "move_to_pose"%string.
Proof.
  unfold valid_variant. simpl. intuition auto.
Qed.

(** The observation built for each variant, field by field. *)
Lemma get_observation_by_variant
  (names : list string) (rs : np.RandomState) (physics : Physics) :
  let base :=
    [ ("position", jitterbug_position physics);
      ("velocity", jitterbug_velocity physics);
      ("motor_position", motor_position physics);
      ("motor_velocity", motor_velocity physics) ]%string in
  get_observation (mkJitterbug names "move_from_origin" rs) physics = ret base
  /\ get_observation (mkJitterbug names "face_direction" rs) physics
     = ret (base ++ [ ("target_direction"%string,
                       vec2_direction_to_target physics) ])
  /\ get_observation (mkJitterbug names "move_in_direction" rs) physics
     = ret (base ++ [ ("target_direction"%string,
                       vec2_direction_to_target physics) ])
  /\ get_observation (mkJitterbug names "move_to_position" rs) physics
     = ret (base ++ [ ("target_position"%string,
                       vec3_jitterbug_to_target physics) ])
  /\ get_observation (mkJitterbug names "move_to_pose" rs) physics
     = ret (base ++ [ ("target_position"%string,
                       vec3_jitterbug_to_target physics);
                      ("target_direction"%string,
                       vec2_direction_to_target physics) ]).
Proof.
  intros base. unfold base, get_observation. cbn [task].
  repeat split; eval_task_tests; cbn [setitem]; eval_task_tests;
    cbn [setitem]; eval_task_tests; reflexivity.
Qed.

(** C8: for every valid variant [get_observation] returns an observation
    whose first four fields are [position], [velocity], [motor_position],
    [motor_velocity] in this order, followed by [target_position] and
    [target_direction] (in this order) for the variants that carry them:
    [target_direction] exactly for [face_direction], [move_in_direction] and
    [move_to_pose], [target_position] exactly for [move_to_position] and
    [move_to_pose]. *)
Theorem get_observation_fields :
  forall (self : Jitterbug) (physics : Physics),
    valid_variant (task self) ->
    exists obs : OrderedDict,
      get_observation self physics = ret obs
      /\ firstn 4 obs
         = [ ("position", jitterbug_position physics);
             ("velocity", jitterbug_velocity physics);
             ("motor_position", motor_position physics);
             ("motor_velocity", motor_velocity physics) ]%string
      /\ keys obs = observation_fields (task self)
      /\ NoDup (keys obs)
      /\ (In "target_direction"%string (keys obs)
          <-> task self = "face_direction"%string
              \/ task self = "move_in_direction"%string
              \/ task self = "move_to_pose"%string)
      /\ (In "target_position"%string (keys obs)
          <-> task self = "move_to_position"%string
              \/ task self = "move_to_pose"%string)
      /\ (task self = "move_to_pose"%string ->
          keys obs = [ "position"; "velocity"; "motor_position";
                       "motor_velocity"; "target_position";
                       "target_direction" ]%string)
      /\ (task self = "move_from_origin"%string ->
          keys obs = [ "position"; "velocity"; "motor_position";
                       "motor_velocity" ]%string).
Proof.
  intros [names name rs] physics Hvalid. cbn [task] in *.
  destruct (get_observation_by_variant names rs physics)
    as [H1 [H2 [H3 [H4 H5]]]].
  assert (forall l : list string,
             NoDup l <-> l = nodup string_dec l) as Hnodup.
  { intros l. split.
    - intros H. symmetry. now apply nodup_fixed_point.
    - intros ->. apply NoDup_nodup. }
  destruct (valid_variant_cases name Hvalid) as [-> | [-> | [-> | [-> | ->]]]];
    eexists; (split; [eassumption |]);
    (split; [reflexivity |]);
    (split; [reflexivity |]);
    (split; [apply Hnodup; reflexivity |]);
    cbn [keys map fst app];
    repeat split; intros H;
    try reflexivity; try discriminate;
    try (simpl in H; intuition discriminate);
    try (simpl; intuition congruence).
Qed.

(** The observation of two variants on a sample state: six fields for
    [move_to_pose], the four base fields for [move_from_origin]. *)
Lemma get_observation_examples :
  (exists obs : OrderedDict,
      get_observation (sample_task "move_to_pose" (constant_random 0))
                      physics_aligned = ret obs
      /\ keys obs = [ "position"; "velocity"; "motor_position";
                      "motor_velocity"; "target_position";
                      "target_direction" ]%string)
  /\ (exists obs : OrderedDict,
         get_observation (sample_task "move_from_origin" (constant_random 0))
                         physics_aligned = ret obs
         /\ keys obs = [ "position"; "velocity"; "motor_position";
                         "motor_velocity" ]%string).
Proof.
  split.
  - destruct (get_observation_fields
                (sample_task "move_to_pose" (constant_random 0))
                physics_aligned)
      as [obs [Hobs [_ [_ [_ [_ [_ [Hsix _]]]]]]]].
    + unfold valid_variant. simpl. tauto.
    + exists obs. split; [exact Hobs | apply Hsix; reflexivity].
  - destruct (get_observation_fields
                (sample_task "move_from_origin" (constant_random 0))
                physics_aligned)
      as [obs [Hobs [_ [_ [_ [_ [_ [_ Hfour]]]]]]]].
    + unfold valid_variant. simpl. tauto.
    + exists obs. split; [exact Hobs | apply Hfour; reflexivity].
Defined.

(** ** Construction *)

Lemma reflected_task_names :
  map fst
    (filter (fun obj => isfunction (snd obj) && py_in (fst obj) SUITE_tasks)
            module_members)
  = [ "face_direction"; "move_from_origin"; "move_in_direction";
      "move_to_pose"; "move_to_position" ]%string.
Proof. reflexivity. Qed.

Lemma valid_variant_reflected (name : string) :
  py_in name [ "face_direction"; "move_from_origin"; "move_in_direction";
               "move_to_pose"; "move_to_position" ]%string = true
  <-> valid_variant name.
Proof.
  rewrite py_in_In. unfold valid_variant. simpl. tauto.
Qed.

(** C9: construction succeeds exactly for the five variant names; for any
    other name, [spin_forever] for one, it raises at once and returns no
    task.  The constructor takes no physics, so no simulation state is
    involved. *)
Theorem Jitterbug_init_validates :
  forall (random : np.RandomState) (name : string),
    let options :=
      [ "face_direction"; "move_from_origin"; "move_in_direction";
        "move_to_pose"; "move_to_position" ]%string in
    (valid_variant name ->
     Jitterbug_init random name = ret (mkJitterbug options name random))
    /\ (~ valid_variant name ->
        Jitterbug_init random name
        = raise (AssertionError
                   ("Invalid task " ++ name ++ ", options are "
                    ++ repr_list options)%string))
    /\ ((exists self : Jitterbug, Jitterbug_init random name = ret self)
        <-> valid_variant name)
    /\ Jitterbug_init random "spin_forever"
       = raise (AssertionError
                  ("Invalid task spin_forever, options are "
                   ++ "['face_direction', 'move_from_origin', "
                   ++ "'move_in_direction', 'move_to_pose', "
                   ++ "'move_to_position']")%string).
Proof.
  intros random name options.
  assert (forall n : string,
             Jitterbug_init random n
             = if py_in n options
               then ret (mkJitterbug options n random)
               else raise (AssertionError
                             ("Invalid task " ++ n ++ ", options are "
                              ++ repr_list options)%string)) as Hinit.
  { intros n. unfold Jitterbug_init. rewrite reflected_task_names.
    reflexivity. }
  pose proof (valid_variant_reflected name) as Hvalid. fold options in Hvalid.
  split; [| split; [| split]].
  - intros H. rewrite Hinit. apply Hvalid in H. now rewrite H.
  - intros H. rewrite Hinit.
    destruct (py_in name options) eqn:Hin; [| reflexivity].
    exfalso. apply H. now apply Hvalid.
  - rewrite Hinit. split.
    + intros [self Hself]. apply Hvalid.
      destruct (py_in name options); [reflexivity | discriminate].
    + intros H. apply Hvalid in H. rewrite H. eauto.
  - rewrite Hinit. reflexivity.
Qed.

(** Construction on two names: [move_to_pose] is accepted and kept as the
    task, [spin_forever] is rejected. *)
Lemma Jitterbug_init_examples :
  (exists self : Jitterbug,
      Jitterbug_init (constant_random 0) "move_to_pose" = ret self
      /\ task self = "move_to_pose"%string)
  /\ (forall self : Jitterbug,
         Jitterbug_init (constant_random 0) "spin_forever" <> ret self).
Proof.
  split.
  - eexists. split.
    + apply (Jitterbug_init_validates (constant_random 0) "move_to_pose").
      unfold valid_variant. simpl. tauto.
    + reflexivity.
  - intros self.
    destruct (Jitterbug_init_validates (constant_random 0) "spin_forever")
      as [_ [_ [_ ->]]].
    discriminate.
Defined.

(** ** Episode initialisation *)

Lemma draw_targets_eq (rs g : np.RandomState) :
  draw_targets rs g
  = mkDraws (0 + (2 * PI - 0) * np.samples rs (np.cursor rs))
            (0.05 + (0.3 - 0.05) * np.samples rs (S (np.cursor rs)))
            (0 + (2 * PI - 0) * np.samples g (np.cursor g))
            (np.mkRandomState (np.samples rs) (S (S (np.cursor rs))))
            (np.mkRandomState (np.samples g) (S (np.cursor g))).
Proof. reflexivity. Qed.

(** What a reset does, variant by variant, in terms of the three draws. *)
Lemma initialize_episode_by_variant (w : World) :
  valid_variant (task (w_self w)) ->
  let name := task (w_self w) in
  let d := draw_targets (random (w_self w)) (w_np_random w) in
  let quat := [cos (d_yaw d / 2); 0; 0; 1 * sin (d_yaw d / 2)] in
  let x := d_radius d * sin (d_angle d) in
  let y := d_radius d * cos (d_angle d) in
  let m := model (w_physics w) in
  exists m' : NamedModel,
    initialize_episode w
    = ret (mkWorld (mkJitterbug (task_names (w_self w)) name (d_random d))
                   (d_np_random d)
                   (mkPhysics (data (w_physics w)) m'))
    /\ (name = "move_from_origin"%string ->
        m' = mkNamedModel 0 (body_pos_target_x m) (body_pos_target_y m)
                          (body_quat_target m))
    /\ (name = "face_direction"%string \/ name = "move_in_direction"%string ->
        m' = mkNamedModel (geom_rgba_targetPointer_3 m) (body_pos_target_x m)
                          (body_pos_target_y m) quat)
    /\ (name = "move_to_position"%string ->
        m' = mkNamedModel 0 x y (body_quat_target m))
    /\ (name = "move_to_pose"%string ->
        m' = mkNamedModel (geom_rgba_targetPointer_3 m) x y quat).
Proof.
  intros Hvalid name d quat x y m.
  unfold initialize_episode. fold d. fold name.
  destruct (valid_variant_cases name Hvalid) as [E | [E | [E | [E | E]]]];
    rewrite E; eval_task_tests; eexists; (split; [reflexivity |]);
    repeat split; intros H; try reflexivity;
    try discriminate; destruct H; discriminate.
Qed.

(** C10: on every valid variant a reset returns, and it has advanced the
    task's generator by exactly two samples, whatever the variant: the first
    scaled to the angle on [[0, 2 pi)], the second to the radius on
    [[0.05, 0.3)]; the two position variants write the target position from
    these two draws. *)
Theorem initialize_episode_two_draws :
  forall w : World,
    valid_variant (task (w_self w)) ->
    let rs := random (w_self w) in
    let u0 := np.samples rs (np.cursor rs) in
    let u1 := np.samples rs (S (np.cursor rs)) in
    let angle := 0 + (2 * PI - 0) * u0 in
    let radius := 0.05 + (0.3 - 0.05) * u1 in
    exists w' : World,
      initialize_episode w = ret w'
      /\ random (w_self w')
         = np.mkRandomState (np.samples rs) (S (S (np.cursor rs)))
      /\ random (w_self w')
         = snd (np.uniform 0.05 0.3 (snd (np.uniform 0 (2 * np.pi) rs)))
      /\ task (w_self w') = task (w_self w)
      /\ fst (np.uniform 0 (2 * np.pi) rs) = angle
      /\ fst (np.uniform 0.05 0.3 (snd (np.uniform 0 (2 * np.pi) rs))) = radius
      /\ (0 <= u0 < 1 -> 0 <= angle < 2 * PI)
      /\ (0 <= u1 < 1 -> 0.05 <= radius < 0.3)
      /\ (task (w_self w) = "move_to_position"%string
          \/ task (w_self w) = "move_to_pose"%string ->
          body_pos_target_x (model (w_physics w')) = radius * sin angle
          /\ body_pos_target_y (model (w_physics w')) = radius * cos angle).
Proof.
  intros w Hvalid rs u0 u1 angle radius.
  destruct (initialize_episode_by_variant w Hvalid)
    as [m' [Hinit [_ [_ [Hpos Hpose]]]]].
  rewrite draw_targets_eq in Hinit, Hpos, Hpose.
  cbn [d_angle d_radius d_yaw d_random d_np_random] in Hinit, Hpos, Hpose.
  fold rs in Hinit. fold rs u0 u1 in Hpos, Hpose.
  fold angle radius in Hpos, Hpose.
  eexists. split; [exact Hinit |]. cbn [w_self w_physics random task model].
  pose proof PI_RGT_0 as Hpi.
  repeat split; try reflexivity; try (unfold angle, radius; nra).
  - destruct H as [H | H]; [rewrite (Hpos H) | rewrite (Hpose H)];
      reflexivity.
  - destruct H as [H | H]; [rewrite (Hpos H) | rewrite (Hpose H)];
      reflexivity.
Qed.

(** A reset of each of two variants from the same generator state: both
    leave the generator two samples further. *)
Lemma initialize_episode_two_draws_examples :
  let w name :=
    mkWorld (sample_task name (constant_random (1 / 2))) (constant_random 0)
            physics_aligned in
  exists w1 w2 : World,
    initialize_episode (w "move_from_origin"%string) = ret w1
    /\ initialize_episode (w "move_to_pose"%string) = ret w2
    /\ np.cursor (random (w_self w1)) = 2%nat
    /\ random (w_self w1) = random (w_self w2)
    /\ body_pos_target_x (model (w_physics w2))
       = (0.05 + (0.3 - 0.05) * (1 / 2)) * sin (0 + (2 * PI - 0) * (1 / 2)).
Proof.
  intros w.
  destruct (initialize_episode_two_draws (w "move_from_origin"%string))
    as [w1 [H1 [Hr1 _]]].
  { unfold valid_variant. simpl. tauto. }
  destruct (initialize_episode_two_draws (w "move_to_pose"%string))
    as [w2 [H2 [Hr2 [_ [_ [_ [_ [_ [_ Hxy]]]]]]]]].
  { unfold valid_variant. simpl. tauto. }
  exists w1, w2.
  split; [exact H1 |]. split; [exact H2 |].
  split; [rewrite Hr1; reflexivity |].
  split; [rewrite Hr1, Hr2; reflexivity |].
  apply Hxy. right. reflexivity.
Defined.

(** C1, evaluated on two resets of a [face_direction] task whose own
    generator is in the same state: the yaw is drawn from numpy's
    module-level generator, not from the task's, so the orientation written
    follows the module-level generator (yaw 0 in one reset, yaw [pi] in the
    other) although the task's generator is identical in both. *)
Theorem initialize_episode_yaw_from_module_rng :
  (forall w : World,
      task (w_self w) = "face_direction"%string ->
      let yaw := fst (np.uniform 0 (2 * np.pi) (w_np_random w)) in
      exists w' : World,
        initialize_episode w = ret w'
        /\ body_quat_target (model (w_physics w'))
           = [cos (yaw / 2); 0; 0; 1 * sin (yaw / 2)])
  /\ exists wa wb : World,
       initialize_episode (world_with_module_rng (constant_random 0)) = ret wa
       /\ initialize_episode (world_with_module_rng (constant_random (1 / 2)))
          = ret wb
       /\ random (w_self (world_with_module_rng (constant_random 0)))
          = random (w_self (world_with_module_rng (constant_random (1 / 2))))
       /\ random (w_self wa) = random (w_self wb)
       /\ body_quat_target (model (w_physics wa)) = [1; 0; 0; 1 * 0]
       /\ body_quat_target (model (w_physics wb)) = [0; 0; 0; 1 * 1].
Proof.
  assert (forall w : World,
             task (w_self w) = "face_direction"%string ->
             exists w' : World,
               initialize_episode w = ret w'
               /\ random (w_self w')
                  = d_random (draw_targets (random (w_self w)) (w_np_random w))
               /\ body_quat_target (model (w_physics w'))
                  = [cos (fst (np.uniform 0 (2 * np.pi) (w_np_random w)) / 2);
                     0; 0;
                     1 * sin (fst (np.uniform 0 (2 * np.pi) (w_np_random w))
                              / 2)]) as Hface.
  { intros w Htask.
    destruct (initialize_episode_by_variant w) as [m' [Hinit [_ [Hq _]]]].
    { rewrite Htask. unfold valid_variant. simpl. tauto. }
    eexists. split; [exact Hinit |]. cbn [w_self w_physics model random].
    split; [reflexivity |].
    rewrite (Hq (or_introl Htask)). reflexivity. }
  split.
  - intros w Htask yaw. destruct (Hface w Htask) as [w' [Hinit [_ Hq]]].
    exists w'. split; assumption.
  - destruct (Hface (world_with_module_rng (constant_random 0)) eq_refl)
      as [wa [Ha [Hra Hqa]]].
    destruct (Hface (world_with_module_rng (constant_random (1 / 2))) eq_refl)
      as [wb [Hb [Hrb Hqb]]].
    exists wa, wb.
    split; [exact Ha |]. split; [exact Hb |].
    split; [reflexivity |].
    split; [rewrite Hra, Hrb; reflexivity |].
    split.
    + rewrite Hqa. unfold np.uniform, np.random_sample, np.pi. simpl.
      replace ((0 + (2 * PI - 0) * 0) / 2) with 0 by field.
      now rewrite cos_0, sin_0.
    + rewrite Hqb. unfold np.uniform, np.random_sample, np.pi. simpl.
      replace ((0 + (2 * PI - 0) * (1 / 2)) / 2) with (PI / 2) by field.
      now rewrite cos_PI2, sin_PI2.
Qed.

(* ================================================================= *)
(** * Further properties of the module *)

(** ** Orientation and yaw *)

(** [arctan2] inverts [(cos, sin)] on [(-pi, pi]]. *)
Lemma arctan2_sin_cos (r : R) :
  - PI < r <= PI -> np.arctan2 (sin r) (cos r) = r.
Proof.
  intros [Hlo Hhi]. pose proof PI_RGT_0 as Hpi. unfold np.arctan2.
  destruct (Rlt_dec 0 (cos r)) as [Hc | Hc].
  - assert (- (PI / 2) < r < PI / 2) as Hr.
    { split; apply Rnot_le_lt; intros Hcontra.
      - destruct (Req_dec r (- (PI / 2))) as [-> | Hne].
        + rewrite cos_neg, cos_PI2 in Hc. lra.
        + assert (cos (- r) < 0) by (apply cos_lt_0; lra).
          rewrite cos_neg in *. lra.
      - destruct (Req_dec r (PI / 2)) as [-> | Hne].
        + rewrite cos_PI2 in Hc. lra.
        + assert (cos r < 0) by (apply cos_lt_0; lra). lra. }
    change (sin r / cos r) with (tan r). now apply atan_tan.
  - destruct (Rlt_dec (cos r) 0) as [Hc' | Hc'].
    + destruct (Rle_dec 0 (sin r)) as [Hs | Hs].
      * assert (PI / 2 < r) as Hr.
        { apply Rnot_le_lt. intros Hcontra.
          destruct (Rle_dec (- (PI / 2)) r) as [Hge | Hlt].
          - destruct (Req_dec r (PI / 2)) as [-> | Hne];
              [rewrite cos_PI2 in Hc'; lra |].
            destruct (Req_dec r (- (PI / 2))) as [-> | Hne'];
              [rewrite cos_neg, cos_PI2 in Hc'; lra |].
            assert (0 < cos r) by (apply cos_gt_0; lra). lra.
          - assert (0 < sin (- r)) by (apply sin_gt_0; lra).
            rewrite sin_neg in *. lra. }
        assert (sin r / cos r = tan (r - PI)) as ->.
        { unfold tan. replace r with (r - PI + PI) at 1 2 by ring.
          rewrite neg_sin, neg_cos. field.
          replace r with (r - PI + PI) in Hc' by ring.
          rewrite neg_cos in Hc'. lra. }
        rewrite atan_tan by lra. ring.
      * assert (r < - (PI / 2)) as Hr.
        { apply Rnot_le_lt. intros Hcontra.
          destruct (Rle_dec 0 r) as [Hge | Hlt].
          - assert (0 <= sin r) by (apply sin_ge_0; lra). lra.
          - destruct (Req_dec r (- (PI / 2))) as [-> | Hne];
              [rewrite cos_neg, cos_PI2 in Hc'; lra |].
            assert (0 < cos r) by (apply cos_gt_0; lra). lra. }
        assert (sin r / cos r = tan (r + PI)) as ->.
        { unfold tan. rewrite neg_sin, neg_cos. field. lra. }
        rewrite atan_tan by lra. ring.
    + assert (cos r = 0) as Hzero by lra.
      assert (r = PI / 2 \/ r = - (PI / 2)) as [-> | ->].
      { destruct (Rle_dec 0 r) as [Hge | Hlt].
        - left. destruct (cos_eq_0_2PI_0 r) as [H | H]; lra.
        - right. assert (cos (- r) = 0) as H0 by (now rewrite cos_neg).
          destruct (cos_eq_0_2PI_0 (- r)) as [H | H]; lra. }
      * rewrite sin_PI2. decide_order.
      * rewrite sin_neg, sin_PI2. decide_order.
Qed.

(** Whole turns do not change sine and cosine, so the normalisation loops
    keep both. *)
Lemma wrap_angle_trig (a : R) :
  cos (wrap_angle a) = cos a /\ sin (wrap_angle a) = sin a.
Proof.
  destruct (wrap_angle_returns a) as [kd [ku [_ [Heq _]]]].
  rewrite Heq.
  replace (a - 2 * PI * INR kd + 2 * PI * INR ku)
    with (a - 2 * PI * INR kd + 2 * INR ku * PI) by ring.
  rewrite cos_period, sin_period.
  replace a with (a - 2 * PI * INR kd + 2 * INR kd * PI) at 2 4 by ring.
  now rewrite cos_period, sin_period.
Qed.

(** The planar heading of the matrix of a rotation about Z. *)
Lemma z_rotation_heading (yaw : R) :
  let mat := mjlib.mju_quat2Mat [cos (yaw / 2); 0; 0; 1 * sin (yaw / 2)] in
  mat_at mat 0 0 = cos yaw /\ mat_at mat 1 0 = sin yaw.
Proof.
  intros mat. unfold mat, mat_at, mjlib.mju_quat2Mat.
  cbn [nth Nat.mul Nat.add].
  assert (cos yaw = cos (2 * (yaw / 2))) as -> by (f_equal; field).
  assert (sin yaw = sin (2 * (yaw / 2))) as -> by (f_equal; field).
  rewrite cos_2a, sin_2a. split; ring.
Qed.

Lemma arctan2_of_angle (yaw : R) :
  np.arctan2 (sin yaw) (cos yaw) = wrap_angle yaw.
Proof.
  destruct (wrap_angle_trig yaw) as [<- <-].
  apply arctan2_sin_cos.
  destruct (wrap_angle_returns yaw) as [kd [ku [_ [_ [Hr _]]]]]. exact Hr.
Qed.

Lemma wrap_angle_range (a : R) : - PI < wrap_angle a <= PI.
Proof.
  destruct (wrap_angle_returns a) as [kd [ku [_ [_ [Hr _]]]]]. exact Hr.
Qed.

Lemma wrap_angle_turns (a : R) :
  exists turns : Z, wrap_angle a = a + 2 * PI * IZR turns.
Proof.
  destruct (wrap_angle_returns a) as [kd [ku [_ [Heq _]]]].
  exists (Z.of_nat ku - Z.of_nat kd)%Z.
  rewrite Heq, minus_IZR, <- !INR_IZR_INZ. ring.
Qed.

Lemma wrap_angle_unique (a r : R) (turns : Z) :
  r = a + 2 * PI * IZR turns -> - PI < r <= PI -> wrap_angle a = r.
Proof.
  intros Hr Hrange. destruct (wrap_angle_turns a) as [z Hz].
  apply (wrapped_unique a (wrap_angle a) r z turns); try assumption.
  apply wrap_angle_range.
Qed.

Lemma wrap_angle_inside (a : R) : - PI < a <= PI -> wrap_angle a = a.
Proof.
  intros Ha. apply (wrap_angle_unique a a 0); [simpl; ring | exact Ha].
Qed.

Lemma wrap_angle_periodic (a : R) (k : Z) :
  wrap_angle (a + 2 * PI * IZR k) = wrap_angle a.
Proof.
  destruct (wrap_angle_turns a) as [z Hz].
  apply (wrap_angle_unique _ _ (z - k)).
  - rewrite Hz, minus_IZR. ring.
  - apply wrap_angle_range.
Qed.

(** The two loops of [angle_jitterbug_to_target] compute a function of the
    starting angle that does not see whole turns and that fixes its own
    results: on an angle already in [(-pi, pi]] neither loop body runs. *)
Theorem wrap_angle_periodic_idempotent :
  forall (a : R) (k : Z),
    wrap_angle (a + 2 * PI * IZR k) = wrap_angle a
    /\ wrap_angle (wrap_angle a) = wrap_angle a
    /\ wrap_angle_fuel 0 (wrap_angle a) = Some (wrap_angle a).
Proof.
  intros a k. pose proof (wrap_angle_range a) as [Hlo Hhi].
  split; [apply wrap_angle_periodic |].
  split; [apply wrap_angle_inside; split; assumption |].
  unfold wrap_angle_fuel, while_above_pi, while_below_minus_pi, np.pi.
  destruct (Rlt_dec PI (wrap_angle a)); [lra |].
  destruct (Rle_dec (wrap_angle a) (- PI)); [lra | reflexivity].
Qed.





(** A robot turned by [theta] about Z has yaw [theta] brought into
    [(-pi, pi]] less a quarter turn; in the reference orientation the yaw
    is [-pi / 2]. *)
Theorem jitterbug_direction_yaw_of_z_rotation :
  forall (physics : Physics) (theta : R),
    qpos_root_quat (data physics)
    = (cos (theta / 2), 0, 0, 1 * sin (theta / 2)) ->
    jitterbug_direction_yaw physics = wrap_angle theta - PI / 2
    /\ (theta = 0 -> jitterbug_direction_yaw physics = - (PI / 2)).
Proof.
  intros physics theta Hq.
  assert (jitterbug_direction_yaw physics = wrap_angle theta - PI / 2) as Hyaw.
  { unfold jitterbug_direction_yaw, jitterbug_position_quat,
      jitterbug_position, qpos_root, np.pi.
    rewrite Hq. destruct (qpos_root_xyz (data physics)) as [[x y] z].
    cbn [arr3 arr4 app skipn].
    destruct (z_rotation_heading theta) as [-> ->].
    now rewrite arctan2_of_angle. }
  split; [exact Hyaw |].
  intros ->. rewrite Hyaw, wrap_angle_inside; pose proof PI_RGT_0; lra.
Qed.

(** A robot turned by a quarter turn counter-clockwise has yaw 0. *)
Lemma jitterbug_direction_yaw_of_z_rotation_example :
  jitterbug_direction_yaw
    (sample_physics (0, 0, 0)
       (cos (PI / 2 / 2), 0, 0, 1 * sin (PI / 2 / 2)) (0, 0) (0, 0, 0)
       (1, 0, 0, 0) 1)
  = 0.
Proof.
  destruct (jitterbug_direction_yaw_of_z_rotation
              (sample_physics (0, 0, 0)
                 (cos (PI / 2 / 2), 0, 0, 1 * sin (PI / 2 / 2)) (0, 0)
                 (0, 0, 0) (1, 0, 0, 0) 1) (PI / 2) eq_refl) as [-> _].
  pose proof PI_RGT_0. rewrite wrap_angle_inside; lra.
Defined.

(** ** Direction vectors and relative yaw *)

(** Both heading vectors are unit vectors, and the relative one is the
    heading of the plain difference of the two yaws: the normalisation of
    the relative yaw does not show in the observation. *)
Theorem direction_vectors_unit :
  forall physics : Physics,
    let t := target_direction_yaw physics in
    let j := jitterbug_direction_yaw physics in
    target_direction_vec2 physics = [cos t; sin t]
    /\ vec2_direction_to_target physics = [cos (t - j); sin (t - j)]
    /\ np.dot (target_direction_vec2 physics) (target_direction_vec2 physics)
       = 1
    /\ np.dot (vec2_direction_to_target physics)
              (vec2_direction_to_target physics) = 1
    /\ np.linalg_norm (vec2_direction_to_target physics) = 1.
Proof.
  intros physics t j.
  assert (vec2_direction_to_target physics = [cos (t - j); sin (t - j)])
    as Hrel.
  { unfold vec2_direction_to_target, angle_jitterbug_to_target. fold t j.
    destruct (wrap_angle_trig (t - j)) as [-> ->]. reflexivity. }
  assert (forall x : R, cos x * cos x + (sin x * sin x + 0) = 1) as Hunit.
  { intros x. pose proof (sin2_cos2 x) as H. unfold Rsqr in H. lra. }
  split; [reflexivity |]. split; [exact Hrel |].
  split; [| split].
  - unfold target_direction_vec2, np.dot. fold t. simpl. apply Hunit.
  - rewrite Hrel. unfold np.dot. simpl. apply Hunit.
  - rewrite Hrel. unfold np.linalg_norm. simpl. rewrite Hunit. apply sqrt_1.
Qed.

(** With the robot turned by [theta_r] and the target by [theta_t] about Z,
    the relative yaw is [theta_t - theta_r + pi / 2] brought into
    [(-pi, pi]]: the quarter turn of the robot's forward axis enters the
    relative yaw, which is 0 when the target is a quarter turn behind the
    robot's orientation. *)
Theorem angle_between_z_rotations :
  forall (physics : Physics) (theta_r theta_t : R),
    qpos_root_quat (data physics)
    = (cos (theta_r / 2), 0, 0, 1 * sin (theta_r / 2)) ->
    target_position_quat physics
    = [cos (theta_t / 2); 0; 0; 1 * sin (theta_t / 2)] ->
    angle_jitterbug_to_target physics
    = wrap_angle (theta_t - theta_r + PI / 2)
    /\ (theta_t = theta_r - PI / 2 -> angle_jitterbug_to_target physics = 0)
    /\ (theta_t = theta_r -> angle_jitterbug_to_target physics = PI / 2).
Proof.
  intros physics theta_r theta_t Hr Ht.
  destruct (jitterbug_direction_yaw_range physics) as [Hj _].
  assert (angle_jitterbug_to_target physics
          = wrap_angle (theta_t - theta_r + PI / 2)) as Hangle.
  { unfold angle_jitterbug_to_target, target_direction_yaw.
    rewrite Hj. unfold jitterbug_position_quat, jitterbug_position, qpos_root.
    rewrite Hr, Ht. destruct (qpos_root_xyz (data physics)) as [[x y] z].
    cbn [arr3 arr4 app skipn].
    destruct (z_rotation_heading theta_r) as [-> ->].
    destruct (z_rotation_heading theta_t) as [-> ->].
    rewrite !arctan2_of_angle.
    destruct (wrap_angle_turns theta_r) as [zr ->].
    destruct (wrap_angle_turns theta_t) as [zt ->].
    replace (theta_t + 2 * PI * IZR zt - (theta_r + 2 * PI * IZR zr - PI / 2))
      with (theta_t - theta_r + PI / 2 + 2 * PI * IZR (zt - zr))
      by (rewrite minus_IZR; ring).
    apply wrap_angle_periodic. }
  pose proof PI_RGT_0 as Hpi.
  split; [exact Hangle |]. split.
  - intros ->. rewrite Hangle.
    replace (theta_r - PI / 2 - theta_r + PI / 2) with 0 by ring.
    apply wrap_angle_inside. lra.
  - intros ->. rewrite Hangle.
    replace (theta_r - theta_r + PI / 2) with (PI / 2) by ring.
    apply wrap_angle_inside. lra.
Qed.

(** Robot and target in the same orientation, a third of a turn about Z:
    the relative yaw is a quarter turn. *)
Lemma angle_between_z_rotations_example :
  angle_jitterbug_to_target
    (sample_physics (0, 0, 0)
       (cos (2 * PI / 3 / 2), 0, 0, 1 * sin (2 * PI / 3 / 2)) (0, 0)
       (0, 0, 0) (cos (2 * PI / 3 / 2), 0, 0, 1 * sin (2 * PI / 3 / 2)) 1)
  = PI / 2.
Proof.
  apply (angle_between_z_rotations _ (2 * PI / 3) (2 * PI / 3));
    reflexivity.
Defined.

(** ** When the reward terms are extreme *)

(** The facing reward is 1 only when the relative yaw is 0 and is 0 only
    when the relative yaw is [pi]. *)
Theorem face_direction_reward_extremes :
  forall physics : Physics,
    (face_direction_reward physics = 1
     <-> angle_jitterbug_to_target physics = 0)
    /\ (face_direction_reward physics = 0
        <-> angle_jitterbug_to_target physics = PI).
Proof.
  intros physics. pose proof PI_RGT_0 as Hpi.
  unfold face_direction_reward, angle_jitterbug_to_target, np.pi.
  set (a := wrap_angle _).
  pose proof (wrap_angle_range
                (target_direction_yaw physics
                 - jitterbug_direction_yaw physics)) as Hr.
  fold a in Hr.
  pose proof (Rabs_pos a) as Hp.
  assert (0 <= Rabs a / PI) as Hx.
  { apply Rmult_le_pos; [assumption | left; now apply Rinv_0_lt_compat]. }
  assert (2 / (Rabs a / PI + 1) - 1
          = (PI - Rabs a) / (PI + Rabs a)) as -> by (field; lra).
  assert (0 < / (PI + Rabs a)) as Hinv by (apply Rinv_0_lt_compat; lra).
  split; split.
  - intros H.
    assert (PI - Rabs a = PI + Rabs a) as Heq.
    { apply (Rmult_eq_reg_r (/ (PI + Rabs a))); [| lra].
      unfold Rdiv in H. rewrite H. field. lra. }
    assert (Rabs a = 0) as H0 by lra.
    destruct (Req_dec a 0) as [-> | Hne]; [reflexivity |].
    apply Rabs_no_R0 in Hne. contradiction.
  - intros ->. rewrite Rabs_R0. field. lra.
  - intros H.
    assert (PI - Rabs a = 0) as Heq.
    { unfold Rdiv in H. apply Rmult_integral in H. destruct H; lra. }
    unfold Rabs in Heq. destruct (Rcase_abs a); lra.
  - intros ->. rewrite Rabs_right by lra. field. lra.
Qed.

(** The position reward is 1 exactly when the robot's root and the target
    geom are at the same point. *)
Theorem move_to_position_reward_is_one :
  forall physics : Physics,
    move_to_position_reward physics = 1
    <-> qpos_root_xyz (data physics) = geom_xpos_target (data physics).
Proof.
  intros physics.
  destruct (qpos_root_xyz (data physics)) as [[jx jy] jz] eqn:Hj.
  destruct (geom_xpos_target (data physics)) as [[tx ty] tz] eqn:Ht.
  unfold move_to_position_reward.
  rewrite (dist_to_target_euclidean physics jx jy jz tx ty tz Hj Ht).
  set (q := (tx - jx) * (tx - jx) + (ty - jy) * (ty - jy)
            + (tz - jz) * (tz - jz)).
  pose proof (Rle_0_sqr (tx - jx)) as Hsx.
  pose proof (Rle_0_sqr (ty - jy)) as Hsy.
  pose proof (Rle_0_sqr (tz - jz)) as Hsz.
  unfold Rsqr in Hsx, Hsy, Hsz.
  assert (0 <= q) as Hq by (unfold q; lra).
  pose proof (sqrt_pos q) as Hs.
  split.
  - intros H.
    assert (sqrt q = 0) as H0.
    { assert (10 * sqrt q + 1 = 1) as H1.
      { apply (Rmult_eq_reg_l (1 / (10 * sqrt q + 1))).
        - rewrite H at 2. field. lra.
        - rewrite H. lra. }
      lra. }
    apply sqrt_eq_0 in H0; [| assumption].
    assert (tx - jx = 0 /\ ty - jy = 0 /\ tz - jz = 0) as [Hx [Hy Hz]].
    { unfold q in H0.
      repeat split; apply Rsqr_0_uniq; unfold Rsqr; lra. }
    repeat f_equal; lra.
  - intros H. injection H as -> -> ->.
    unfold q. replace ((tx - tx) * (tx - tx) + (ty - ty) * (ty - ty)
                       + (tz - tz) * (tz - tz)) with 0 by ring.
    rewrite sqrt_0. field.
Qed.

(** ** The range of the reward *)

Lemma move_to_position_reward_range (physics : Physics) :
  0 < move_to_position_reward physics <= 1.
Proof.
  pose proof (dist_to_target_nonneg physics) as Hd.
  unfold move_to_position_reward, Rdiv. rewrite Rmult_1_l. split.
  - apply Rinv_0_lt_compat. lra.
  - rewrite <- Rinv_1 at 2. apply Rinv_le_contravar; lra.
Qed.

Lemma face_direction_reward_range (physics : Physics) :
  0 <= face_direction_reward physics <= 1.
Proof.
  unfold face_direction_reward, angle_jitterbug_to_target, np.pi.
  apply facing_formula_bounds. apply Rabs_le.
  pose proof (wrap_angle_range
                (target_direction_yaw physics
                 - jitterbug_direction_yaw physics)). lra.
Qed.

Lemma upright_reward_range (physics : Physics) :
  0 <= upright_reward physics <= 1
  /\ (xmat_jitterbug_zz (data physics) <= 0 -> upright_reward physics = 0).
Proof.
  rewrite upright_reward_clamp.
  destruct (clamp_unit_cases (xmat_jitterbug_zz (data physics)))
    as [H0 [_ [_ Hr]]].
  split; assumption.
Qed.

(** The value dispatched for each variant. *)
Lemma get_reward_dispatch_by_variant
  (names : list string) (rs : np.RandomState) (physics : Physics) :
  get_reward_dispatch (mkJitterbug names "move_from_origin" rs) physics
  = ret (1 - move_to_position_reward physics)
  /\ get_reward_dispatch (mkJitterbug names "face_direction" rs) physics
     = ret (face_direction_reward physics)
  /\ get_reward_dispatch (mkJitterbug names "move_in_direction" rs) physics
     = ret (clamp (Rmax 0 (heading_speed physics) / 0.3) 0 1)
  /\ get_reward_dispatch (mkJitterbug names "move_to_position" rs) physics
     = ret (move_to_position_reward physics)
  /\ get_reward_dispatch (mkJitterbug names "move_to_pose" rs) physics
     = ret (move_to_position_reward physics * face_direction_reward physics).
Proof.
  split; [| split; [| split; [| split]]];
    try apply move_in_direction_dispatch;
    unfold get_reward_dispatch; cbn [task]; eval_task_tests; reflexivity.
Qed.

Lemma get_reward_dispatch_range (self : Jitterbug) (physics : Physics) :
  valid_variant (task self) ->
  exists base : R,
    get_reward_dispatch self physics = ret base /\ 0 <= base <= 1.
Proof.
  destruct self as [names name rs]. cbn [task]. intros Hvalid.
  destruct (get_reward_dispatch_by_variant names rs physics)
    as [H1 [H2 [H3 [H4 H5]]]].
  pose proof (move_to_position_reward_range physics) as Hp.
  pose proof (face_direction_reward_range physics) as Hf.
  destruct (clamp_unit_cases (Rmax 0 (heading_speed physics) / 0.3))
    as [_ [_ [_ Hm]]].
  destruct (valid_variant_cases name Hvalid) as [-> | [-> | [-> | [-> | ->]]]];
    eexists; (split; [eassumption |]); try lra; nra.
Qed.

(** For every valid variant and every state the reward lies in [[0, 1]],
    and it is 0 whenever the robot's Z axis does not point upwards at all
    (ZZ entry not positive). *)
Theorem get_reward_range :
  forall (self : Jitterbug) (physics : Physics),
    valid_variant (task self) ->
    exists r : R,
      get_reward self physics = ret r
      /\ 0 <= r <= 1
      /\ (xmat_jitterbug_zz (data physics) <= 0 -> r = 0).
Proof.
  intros self physics Hvalid.
  destruct (get_reward_dispatch_range self physics Hvalid)
    as [base [Hbase Hrange]].
  destruct (upright_reward_range physics) as [Hup Hzero].
  exists (base * upright_reward physics).
  unfold get_reward. rewrite Hbase.
  split; [reflexivity |]. split; [nra |].
  intros Hzz. rewrite (Hzero Hzz). ring.
Qed.

(** An upside-down robot sitting on the target earns nothing in
    [move_to_position]. *)
Lemma get_reward_range_example :
  get_reward (sample_task "move_to_position" (constant_random 0))
             (sample_physics (0, 0, 0) (1, 0, 0, 0) (0, 0) (0, 0, 0)
                             (1, 0, 0, 0) (-1))
  = ret 0.
Proof.
  destruct (get_reward_range
              (sample_task "move_to_position" (constant_random 0))
              (sample_physics (0, 0, 0) (1, 0, 0, 0) (0, 0) (0, 0, 0)
                              (1, 0, 0, 0) (-1)))
    as [r [Hr [_ Hzero]]].
  - unfold valid_variant. simpl. tauto.
  - rewrite Hr. f_equal. apply Hzero. simpl. lra.
Defined.

(** In [move_from_origin] the dispatched reward is [10 d / (10 d + 1)] for
    the distance [d] to the target: 0 on the target, below 1 everywhere,
    and strictly increasing with the distance. *)
Theorem move_from_origin_reward_shape :
  forall (names : list string) (rs : np.RandomState) (physics : Physics),
    let self := mkJitterbug names "move_from_origin" rs in
    let d := np.linalg_norm (vec3_jitterbug_to_target physics) in
    get_reward_dispatch self physics = ret (10 * d / (10 * d + 1))
    /\ 0 <= 10 * d / (10 * d + 1) < 1
    /\ (d = 0 -> get_reward_dispatch self physics = ret 0)
    /\ (forall physics' : Physics,
          let d' := np.linalg_norm (vec3_jitterbug_to_target physics') in
          d < d' -> 10 * d / (10 * d + 1) < 10 * d' / (10 * d' + 1)).
Proof.
  intros names rs physics self d.
  pose proof (dist_to_target_nonneg physics) as Hd. fold d in Hd.
  destruct (get_reward_dispatch_by_variant names rs physics) as [H1 _].
  assert (forall x : R, 0 <= x -> 10 * x / (10 * x + 1) = 1 - 1 / (10 * x + 1))
    as Hform by (intros x Hx; field; lra).
  assert (forall x y : R, 0 <= x -> x < y ->
                          / (10 * y + 1) < / (10 * x + 1)) as Hinv.
  { intros x y Hx Hxy. apply Rinv_lt_contravar; [| lra].
    apply Rmult_lt_0_compat; lra. }
  split; [| split; [| split]].
  - unfold self. rewrite H1. unfold move_to_position_reward. fold d.
    f_equal. symmetry. now apply Hform.
  - rewrite Hform by assumption.
    pose proof (move_to_position_reward_range physics) as Hp.
    unfold move_to_position_reward in Hp. fold d in Hp. lra.
  - intros H0. unfold self. rewrite H1. unfold move_to_position_reward.
    fold d. rewrite H0. f_equal. field.
  - intros physics' d' Hlt.
    rewrite !Hform by lra. pose proof (Hinv d d' Hd Hlt). lra.
Qed.

(** On one state the [move_to_pose] reward never exceeds the
    [move_to_position] reward nor the [face_direction] reward. *)
Theorem move_to_pose_reward_below_both :
  forall (names : list string) (rs : np.RandomState) (physics : Physics),
    exists pose position facing : R,
      get_reward (mkJitterbug names "move_to_pose" rs) physics = ret pose
      /\ get_reward (mkJitterbug names "move_to_position" rs) physics
         = ret position
      /\ get_reward (mkJitterbug names "face_direction" rs) physics
         = ret facing
      /\ pose <= position /\ pose <= facing.
Proof.
  intros names rs physics.
  destruct (get_reward_dispatch_by_variant names rs physics)
    as [_ [H2 [_ [H4 H5]]]].
  pose proof (move_to_position_reward_range physics) as Hp.
  pose proof (face_direction_reward_range physics) as Hf.
  destruct (upright_reward_range physics) as [Hup _].
  set (p := move_to_position_reward physics) in *.
  set (f := face_direction_reward physics) in *.
  set (u := upright_reward physics) in *.
  assert (0 <= p * u) as Hpu by nra.
  assert (0 <= f * u) as Hfu by nra.
  do 3 eexists. unfold get_reward. rewrite H2, H4, H5.
  repeat split; try reflexivity; cbn [bind ret]; fold u.
  - replace (p * f * u) with (p * u * f) by ring.
    rewrite <- (Rmult_1_r (p * u)) at 2.
    apply Rmult_le_compat_l; lra.
  - replace (p * f * u) with (f * u * p) by ring.
    rewrite <- (Rmult_1_r (f * u)) at 2.
    apply Rmult_le_compat_l; lra.
Qed.

(** The speed along the target heading never exceeds the planar speed. *)
Lemma heading_speed_below_speed (physics : Physics) :
  Rabs (heading_speed physics)
  <= np.linalg_norm (firstn 2 (jitterbug_velocity_xyz physics)).
Proof.
  destruct (qvel_root_xyz (data physics)) as [[vx vy] vz] eqn:Hv.
  rewrite (heading_speed_coordinates physics vx vy vz Hv).
  unfold np.linalg_norm, jitterbug_velocity_xyz, jitterbug_velocity, qvel_root.
  rewrite Hv. destruct (qvel_root_rpy (data physics)) as [[a b] c]. simpl.
  set (t := target_direction_yaw physics).
  pose proof (sin2_cos2 t) as Hunit. unfold Rsqr in Hunit.
  replace (vx * vx + (vy * vy + 0)) with (vx * vx + vy * vy) by ring.
  apply Rsqr_incr_0_var; [| apply sqrt_pos].
  rewrite <- Rsqr_abs, Rsqr_sqrt by nra.
  unfold Rsqr.
  assert (0 <= (vx * sin t - vy * cos t) * (vx * sin t - vy * cos t))
    by apply Rle_0_sqr.
  nra.
Qed.

(** In [move_in_direction] the dispatched reward times 0.3 is at most the
    robot's planar speed: the full reward needs a planar speed of at least
    0.3, whatever the heading. *)
Theorem move_in_direction_reward_needs_speed :
  forall (names : list string) (rs : np.RandomState) (physics : Physics),
    let speed := np.linalg_norm (firstn 2 (jitterbug_velocity_xyz physics)) in
    exists r : R,
      get_reward_dispatch (mkJitterbug names "move_in_direction" rs) physics
      = ret r
      /\ r * 0.3 <= speed
      /\ (r = 1 -> 0.3 <= speed).
Proof.
  intros names rs physics speed.
  pose proof (heading_speed_below_speed physics) as Hcs. fold speed in Hcs.
  eexists. split; [apply move_in_direction_dispatch |].
  set (p := heading_speed physics) in *.
  assert (clamp (Rmax 0 p / 0.3) 0 1 * 0.3 <= speed) as Hle.
  { assert (0 <= speed) by (apply sqrt_pos).
    assert (Rmax 0 p <= speed) as Hmax.
    { apply Rmax_lub; [assumption |].
      apply Rle_trans with (Rabs p); [apply RRle_abs | assumption]. }
    assert (0 <= Rmax 0 p) by apply Rmax_l.
    assert (clamp (Rmax 0 p / 0.3) 0 1 <= Rmax 0 p / 0.3) as Hc.
    { unfold clamp. rewrite (Rmax_left _ 0) by lra. apply Rmin_l. }
    lra. }
  split; [exact Hle |]. intros H1. rewrite H1 in Hle. lra.
Qed.

(** ** Registry and dispatch agree *)

Lemma Jitterbug_init_inversion
  (rs : np.RandomState) (name : string) (self : Jitterbug) :
  Jitterbug_init rs name = ret self ->
  valid_variant name /\ task self = name /\ random self = rs.
Proof.
  unfold Jitterbug_init. rewrite reflected_task_names.
  destruct (py_in name _) eqn:Hin; [| discriminate].
  intros H. injection H as <-. cbn [task random].
  split; [now apply valid_variant_reflected | auto].
Qed.

(** A task that the constructor accepted is handled by every later
    dispatch: [get_observation], [get_reward] and [initialize_episode]
    return for it and never reach their [ValueError] branch. *)
Theorem constructed_task_always_dispatches :
  forall (rs np_random : np.RandomState) (name : string) (self : Jitterbug)
         (physics : Physics),
    Jitterbug_init rs name = ret self ->
    (exists obs : OrderedDict, get_observation self physics = ret obs)
    /\ (exists r : R, get_reward self physics = ret r)
    /\ (exists w' : World,
           initialize_episode (mkWorld self np_random physics) = ret w').
Proof.
  intros rs np_random name self physics Hinit.
  destruct (Jitterbug_init_inversion rs name self Hinit) as [Hvalid [Ht _]].
  rewrite <- Ht in Hvalid.
  split; [| split].
  - destruct self as [names nm r]. cbn [task] in Hvalid.
    destruct (get_observation_by_variant names r physics)
      as [H1 [H2 [H3 [H4 H5]]]].
    destruct (valid_variant_cases nm Hvalid)
      as [-> | [-> | [-> | [-> | ->]]]]; eexists; eassumption.
  - destruct (get_reward_dispatch_range self physics Hvalid)
      as [base [Hbase _]].
    unfold get_reward. rewrite Hbase. eexists. reflexivity.
  - destruct (initialize_episode_by_variant (mkWorld self np_random physics))
      as [m' [H _]]; [exact Hvalid | eexists; exact H].
Qed.

(** Built through the constructor, [move_to_pose] dispatches everywhere. *)
Lemma constructed_task_always_dispatches_example :
  exists self : Jitterbug,
    Jitterbug_init (constant_random 0) "move_to_pose" = ret self
    /\ (exists obs : OrderedDict,
           get_observation self physics_aligned = ret obs)
    /\ (exists r : R, get_reward self physics_aligned = ret r)
    /\ (exists w' : World,
           initialize_episode
             (mkWorld self (constant_random 0) physics_aligned) = ret w').
Proof.
  eexists. split; [reflexivity |].
  apply (constructed_task_always_dispatches
           (constant_random 0) (constant_random 0) "move_to_pose").
  reflexivity.
Defined.


(** ** An unknown task *)

Lemma invalid_variant_tests (name : string) :
  ~ valid_variant name ->
  (name =? "move_from_origin")%string = false
  /\ (name =? "face_direction")%string = false
  /\ (name =? "move_in_direction")%string = false
  /\ (name =? "move_to_position")%string = false
  /\ (name =? "move_to_pose")%string = false.
Proof.
  unfold valid_variant. simpl. intros H.
  repeat split; apply String.eqb_neq; intros ->; apply H; tauto.
Qed.

(** A task object whose name is none of the five (one that did not come
    from the constructor) makes [get_observation], [get_reward] and
    [initialize_episode] raise [ValueError] with the message
    [Invalid task <name>]; none of them returns a value. *)
Theorem unknown_task_raises_ValueError :
  forall (self : Jitterbug) (np_random : np.RandomState) (physics : Physics),
    ~ valid_variant (task self) ->
    let error := ValueError ("Invalid task " ++ task self)%string in
    get_observation self physics = raise error
    /\ get_reward self physics = raise error
    /\ initialize_episode (mkWorld self np_random physics) = raise error.
Proof.
  intros self np_random physics Hinvalid error.
  destruct (invalid_variant_tests (task self) Hinvalid)
    as [E1 [E2 [E3 [E4 E5]]]].
  unfold get_observation, get_reward, get_reward_dispatch, initialize_episode.
  cbn [w_self w_physics w_np_random].
  rewrite E1, E2, E3, E4, E5. repeat split.
Qed.

(** A task object named [spin_forever] raises in all three methods. *)
Lemma unknown_task_raises_ValueError_example :
  get_observation (sample_task "spin_forever" (constant_random 0))
                  physics_aligned
  = raise (ValueError "Invalid task spin_forever")
  /\ get_reward (sample_task "spin_forever" (constant_random 0))
                physics_aligned
     = raise (ValueError "Invalid task spin_forever")
  /\ initialize_episode
       (mkWorld (sample_task "spin_forever" (constant_random 0))
                (constant_random 0) physics_aligned)
     = raise (ValueError "Invalid task spin_forever").
Proof.
  apply (unknown_task_raises_ValueError
           (sample_task "spin_forever" (constant_random 0))).
  unfold valid_variant. simpl. intros H.
  repeat destruct H as [H | H]; try discriminate; exact H.
Defined.

(** ** What a reset writes and what it leaves alone *)



(** In the two position variants, with unit-interval samples from the
    task's generator, the target is placed at distance [radius] from the
    origin of its parent frame, hence at a distance in [[0.05, 0.3)], never
    on the origin itself. *)
Theorem initialize_episode_target_in_annulus :
  forall w : World,
    task (w_self w) = "move_to_position"%string
    \/ task (w_self w) = "move_to_pose"%string ->
    let rs := random (w_self w) in
    0 <= np.samples rs (np.cursor rs) < 1 ->
    0 <= np.samples rs (S (np.cursor rs)) < 1 ->
    exists w' : World,
      initialize_episode w = ret w'
      /\ let x := body_pos_target_x (model (w_physics w')) in
         let y := body_pos_target_y (model (w_physics w')) in
         np.linalg_norm [x; y]
         = 0.05 + (0.3 - 0.05) * np.samples rs (S (np.cursor rs))
         /\ 0.05 <= np.linalg_norm [x; y] < 0.3.
Proof.
  intros w Htask rs Hu0 Hu1.
  destruct (initialize_episode_by_variant w) as [m' [Hinit [_ [_ [H3 H4]]]]].
  { unfold valid_variant. destruct Htask as [-> | ->]; simpl; tauto. }
  rewrite draw_targets_eq in Hinit, H3, H4.
  cbn [d_angle d_radius d_yaw d_random d_np_random] in Hinit, H3, H4.
  fold rs in Hinit, H3, H4.
  set (radius := 0.05 + (0.3 - 0.05) * np.samples rs (S (np.cursor rs))) in *.
  set (angle := 0 + (2 * PI - 0) * np.samples rs (np.cursor rs)) in *.
  assert (0.05 <= radius < 0.3) as Hr by (unfold radius; lra).
  assert (body_pos_target_x m' = radius * sin angle
          /\ body_pos_target_y m' = radius * cos angle) as [Hx Hy].
  { destruct Htask as [H | H]; [rewrite (H3 H) | rewrite (H4 H)];
      split; reflexivity. }
  eexists. split; [exact Hinit |]. cbn [w_physics model].
  rewrite Hx, Hy.
  assert (np.linalg_norm [radius * sin angle; radius * cos angle] = radius)
    as ->.
  { unfold np.linalg_norm. simpl.
    pose proof (sin2_cos2 angle) as Hunit. unfold Rsqr in Hunit.
    replace (radius * sin angle * (radius * sin angle)
             + (radius * cos angle * (radius * cos angle) + 0))
      with (radius * radius * (sin angle * sin angle + cos angle * cos angle))
      by ring.
    rewrite Hunit, Rmult_1_r. apply sqrt_square. lra. }
  split; [reflexivity | exact Hr].
Qed.

(** With every sample 1/2 the target of [move_to_position] lands at
    distance 0.175. *)
Lemma initialize_episode_target_in_annulus_example :
  exists w' : World,
    initialize_episode
      (mkWorld (sample_task "move_to_position" (constant_random (1 / 2)))
               (constant_random 0) physics_aligned) = ret w'
    /\ np.linalg_norm [ body_pos_target_x (model (w_physics w'));
                        body_pos_target_y (model (w_physics w')) ]
       = 0.05 + (0.3 - 0.05) * (1 / 2).
Proof.
  destruct (initialize_episode_target_in_annulus
              (mkWorld (sample_task "move_to_position"
                                    (constant_random (1 / 2)))
                       (constant_random 0) physics_aligned))
    as [w' [Hinit [Hnorm _]]].
  - left. reflexivity.
  - simpl. lra.
  - simpl. lra.
  - exists w'. split; [exact Hinit | exact Hnorm].
Defined.

(** In the three orientation variants the quaternion written is a unit
    quaternion turning about Z only: its matrix keeps the Z axis ([ZZ]
    entry 1) and its planar heading is the drawn yaw brought into
    [(-pi, pi]]. *)
Theorem initialize_episode_writes_z_rotation :
  forall w : World,
    task (w_self w) = "face_direction"%string
    \/ task (w_self w) = "move_in_direction"%string
    \/ task (w_self w) = "move_to_pose"%string ->
    let yaw := fst (np.uniform 0 (2 * np.pi) (w_np_random w)) in
    exists w' : World,
      initialize_episode w = ret w'
      /\ let q := body_quat_target (model (w_physics w')) in
         let mat := mjlib.mju_quat2Mat q in
         q = [cos (yaw / 2); 0; 0; 1 * sin (yaw / 2)]
         /\ np.dot q q = 1
         /\ mat_at mat 2 2 = 1
         /\ np.arctan2 (mat_at mat 1 0) (mat_at mat 0 0) = wrap_angle yaw.
Proof.
  intros w Htask yaw.
  destruct (initialize_episode_by_variant w) as [m' [Hinit [_ [H2 [_ H4]]]]].
  { unfold valid_variant. destruct Htask as [-> | [-> | ->]]; simpl; tauto. }
  assert (body_quat_target m' = [cos (yaw / 2); 0; 0; 1 * sin (yaw / 2)])
    as Hq.
  { destruct Htask as [H | [H | H]];
      [rewrite (H2 (or_introl H)) | rewrite (H2 (or_intror H))
       | rewrite (H4 H)]; reflexivity. }
  eexists. split; [exact Hinit |]. cbn [w_physics model]. rewrite Hq.
  pose proof (sin2_cos2 (yaw / 2)) as Hunit. unfold Rsqr in Hunit.
  split; [reflexivity |]. split; [| split].
  - unfold np.dot. simpl. lra.
  - unfold mat_at, mjlib.mju_quat2Mat. cbn [nth Nat.mul Nat.add]. lra.
  - destruct (z_rotation_heading yaw) as [-> ->]. apply arctan2_of_angle.
Qed.

(** With the module-level generator at sample 3/4 (a yaw of [3 pi / 2])
    the quaternion written has unit length. *)
Lemma initialize_episode_writes_z_rotation_example :
  exists w' : World,
    initialize_episode (world_with_module_rng (constant_random (3 / 4)))
    = ret w'
    /\ np.dot (body_quat_target (model (w_physics w')))
              (body_quat_target (model (w_physics w'))) = 1.
Proof.
  destruct (initialize_episode_writes_z_rotation
              (world_with_module_rng (constant_random (3 / 4))))
    as [w' [Hinit [_ [Hunit _]]]].
  - left. reflexivity.
  - exists w'. split; [exact Hinit | exact Hunit].
Defined.

(** ** The shape of an observation *)

Lemma field_lengths (physics : Physics) :
  List.length (jitterbug_position physics) = 7%nat
  /\ List.length (jitterbug_velocity physics) = 6%nat
  /\ List.length (motor_position physics) = 1%nat
  /\ List.length (motor_velocity physics) = 1%nat
  /\ List.length (vec3_jitterbug_to_target physics) = 3%nat
  /\ List.length (vec2_direction_to_target physics) = 2%nat.
Proof.
  unfold jitterbug_position, jitterbug_velocity, qpos_root, qvel_root,
    vec3_jitterbug_to_target, np.sub, target_position_xyz,
    jitterbug_position_xyz, jitterbug_position, qpos_root.
  destruct (qpos_root_xyz (data physics)) as [[a b] c].
  destruct (qpos_root_quat (data physics)) as [[[w x] y] z].
  destruct (qvel_root_xyz (data physics)) as [[va vb] vc].
  destruct (qvel_root_rpy (data physics)) as [[ra rb] rc].
  destruct (geom_xpos_target (data physics)) as [[ta tb] tc].
  repeat split.
Qed.

(** For every valid variant the observation holds arrays of fixed lengths:
    7 for [position], 6 for [velocity], 1 for each motor field, 3 for
    [target_position] and 2 for [target_direction]; flattened in field order
    it has 15 entries, plus 3 with a target position, plus 2 with a target
    direction (15, 17, 17, 18 and 20 for the five variants). *)
Theorem get_observation_shape :
  forall (self : Jitterbug) (physics : Physics),
    valid_variant (task self) ->
    exists obs : OrderedDict,
      get_observation self physics = ret obs
      /\ map (fun field => List.length (snd field)) obs
         = [7; 6; 1; 1]%nat
           ++ (if has_target_position (task self) then [3%nat] else [])
           ++ (if has_target_direction (task self) then [2%nat] else [])
      /\ List.length (List.concat (map snd obs))
         = (15 + (if has_target_position (task self) then 3 else 0)
            + (if has_target_direction (task self) then 2 else 0))%nat.
Proof.
  intros [names name rs] physics Hvalid. cbn [task] in *.
  destruct (get_observation_by_variant names rs physics)
    as [H1 [H2 [H3 [H4 H5]]]].
  destruct (field_lengths physics) as [L1 [L2 [L3 [L4 [L5 L6]]]]].
  destruct (valid_variant_cases name Hvalid) as [-> | [-> | [-> | [-> | ->]]]];
    eexists; (split; [eassumption |]);
    cbn [map snd app List.concat has_target_position has_target_direction];
    rewrite ?List.length_app, ?L1, ?L2, ?L3, ?L4, ?L5, ?L6;
    split; reflexivity.
Qed.

(** The observation of [move_to_pose] flattens to 20 numbers. *)
Lemma get_observation_shape_example :
  exists obs : OrderedDict,
    get_observation (sample_task "move_to_pose" (constant_random 0))
                    physics_aligned = ret obs
    /\ List.length (List.concat (map snd obs)) = 20%nat.
Proof.
  destruct (get_observation_shape
              (sample_task "move_to_pose" (constant_random 0))
              physics_aligned) as [obs [Hobs [_ Hlen]]].
  - unfold valid_variant. simpl. tauto.
  - exists obs. split; [exact Hobs | exact Hlen].
Defined.

(* ================================================================= *)
(** * Properties of the training script *)




Lemma ep_size_is_1000 :
  benchmark.int_of_float (DEFAULT_TIME_LIMIT / DEFAULT_CONTROL_TIMESTEP)
  = 1000%Z.
Proof.
  unfold benchmark.int_of_float, Int_part, DEFAULT_TIME_LIMIT,
    DEFAULT_CONTROL_TIMESTEP.
  assert (10 / 0.01 = 1000) as -> by lra.
  rewrite <- (tech_up 1000 1001); [reflexivity | lra | lra].
Qed.

Lemma cb_history (last_num_eps : nat) (locals : benchmark.Locals) :
  benchmark.locals_self locals <> benchmark.OtherAgent ->
  let hist := benchmark.ep_r_hist locals in
  benchmark.cb last_num_eps locals
  = if negb (List.length hist =? last_num_eps)%nat then
      match hist with
      | [] => (List.length hist, inl benchmark.IndexError)
      | _ :: _ =>
          (List.length hist,
           inr (Some (benchmark.mkReport
                        (List.length hist)
                        (1000 * Z.of_nat (List.length hist))
                        (last hist 0)
                        (benchmark.mean (benchmark.last_five hist))),
                true))
      end
    else (last_num_eps, inr (None, true)).
Proof.
  intros Hagent hist. unfold hist, benchmark.cb, benchmark.ep_r_hist.
  rewrite ep_size_is_1000.
  destruct (benchmark.locals_self locals); try reflexivity. contradiction.
Qed.

(** The training callback saves a checkpoint exactly when the number of
    finished episodes differs from the one it remembered, reporting 1000
    steps per episode; it then remembers the new number, so a second call on
    the same history saves nothing.  Whenever it returns it returns [True]
    (it never stops the training).  It raises [IndexError] only on an empty
    history after a non-empty one, never from its initial state. *)
Theorem cb_saves_on_new_episodes :
  forall (last_num_eps : nat) (locals : benchmark.Locals),
    benchmark.locals_self locals <> benchmark.OtherAgent ->
    let hist := benchmark.ep_r_hist locals in
    let out := benchmark.cb last_num_eps locals in
    fst out = List.length hist
    /\ (List.length hist = last_num_eps -> snd out = inr (None, true))
    /\ (List.length hist <> last_num_eps -> hist <> [] ->
        exists report : benchmark.Report,
          snd out = inr (Some report, true)
          /\ benchmark.report_num_eps report = List.length hist
          /\ benchmark.report_elapsed_steps report
             = (1000 * Z.of_nat (List.length hist))%Z
          /\ benchmark.report_episode_reward report = last hist 0)
    /\ (snd out = inl benchmark.IndexError
        <-> hist = [] /\ last_num_eps <> O)
    /\ (forall (saved : option benchmark.Report) (continue : bool),
          snd out = inr (saved, continue) -> continue = true)
    /\ benchmark.cb (fst out) locals = (fst out, inr (None, true)).
Proof.
  intros last_num_eps locals Hagent hist out.
  assert (fst out = List.length hist) as Hfst.
  { unfold out. rewrite (cb_history last_num_eps locals Hagent). fold hist.
    destruct (List.length hist =? last_num_eps)%nat eqn:E; cbn [negb].
    - apply Nat.eqb_eq in E. now rewrite E.
    - destruct hist; reflexivity. }
  split; [exact Hfst |].
  split; [| split; [| split; [| split]]].
  - intros Heq. unfold out.
    rewrite (cb_history last_num_eps locals Hagent). fold hist.
    apply Nat.eqb_eq in Heq. rewrite Heq. reflexivity.
  - intros Hne Hnonempty. unfold out.
    rewrite (cb_history last_num_eps locals Hagent). fold hist.
    apply Nat.eqb_neq in Hne. rewrite Hne. cbn [negb].
    destruct hist as [| r rest] eqn:Eh; [contradiction |].
    eexists. split; [reflexivity |]. repeat split.
  - unfold out. rewrite (cb_history last_num_eps locals Hagent). fold hist.
    destruct (List.length hist =? last_num_eps)%nat eqn:E; cbn [negb].
    + apply Nat.eqb_eq in E. split; [discriminate |].
      intros [Hnil Hlast]. rewrite Hnil in E. simpl in E. congruence.
    + apply Nat.eqb_neq in E. destruct hist as [| r rest] eqn:Eh.
      * split; [| reflexivity]. intros _. split; [reflexivity |].
        simpl in E. congruence.
      * split; [discriminate | intros [Hnil _]; discriminate].
  - intros saved continue. unfold out.
    rewrite (cb_history last_num_eps locals Hagent). fold hist.
    destruct (negb (List.length hist =? last_num_eps)%nat);
      [destruct hist |]; cbn [snd]; intros H; try discriminate;
      now injection H as _ <-.
  - rewrite Hfst, (cb_history (List.length hist) locals Hagent). fold hist.
    rewrite Nat.eqb_refl. reflexivity.
Qed.

(** Three episodes finished under SAC, none remembered: the callback
    saves, reports 3000 steps and the last reward, and remembers 3. *)
Lemma cb_saves_on_new_episodes_example :
  let locals :=
    benchmark.mkLocals benchmark.SAC []
      [ benchmark.mkEpInfo 1 1000; benchmark.mkEpInfo 2 1000;
        benchmark.mkEpInfo 4 1000 ] in
  fst (benchmark.cb 0 locals) = 3%nat
  /\ exists report : benchmark.Report,
       snd (benchmark.cb 0 locals) = inr (Some report, true)
       /\ benchmark.report_elapsed_steps report = 3000%Z
       /\ benchmark.report_episode_reward report = 4.
Proof.
  intros locals.
  destruct (cb_saves_on_new_episodes 0 locals) as [Hfst [_ [Hsave _]]].
  - discriminate.
  - split; [exact Hfst |].
    destruct Hsave as [report [Hout [_ [Hsteps Hlast]]]].
    + simpl. discriminate.
    + simpl. discriminate.
    + exists report. split; [exact Hout |]. split; assumption.
Defined.

Lemma sum_bounds (l : list R) (lo hi : R) :
  Forall (fun x => lo <= x <= hi) l ->
  lo * INR (List.length l) <= fold_right Rplus 0 l <= hi * INR (List.length l).
Proof.
  induction 1 as [| x l Hx Hl IH].
  - simpl. lra.
  - cbn [List.length fold_right]. rewrite S_INR. lra.
Qed.

Lemma last_skipn (l : list R) (k : nat) :
  (k < List.length l)%nat -> last (skipn k l) 0 = last l 0.
Proof.
  revert k. induction l as [| x l IH]; intros k Hk; [simpl in Hk; lia |].
  destruct k as [| k]; [reflexivity |].
  simpl in Hk. cbn [skipn]. rewrite IH by lia.
  destruct l; [simpl in Hk; lia | reflexivity].
Qed.

(** The mean the callback prints is taken over the last five episode
    rewards (over all of them when there are at most five), whose last is
    the reward printed beside it; it stays within any bounds that hold for
    every episode reward. *)
Theorem last_five_mean_bounds :
  forall (hist : list R) (lo hi : R),
    hist <> [] ->
    Forall (fun x => lo <= x <= hi) hist ->
    List.length (benchmark.last_five hist) = Nat.min 5 (List.length hist)
    /\ ((List.length hist <= 5)%nat -> benchmark.last_five hist = hist)
    /\ last (benchmark.last_five hist) 0 = last hist 0
    /\ lo <= benchmark.mean (benchmark.last_five hist) <= hi.
Proof.
  intros hist lo hi Hne Hall.
  assert (0 < List.length hist)%nat as Hlen.
  { destruct hist; [contradiction | simpl; lia]. }
  unfold benchmark.last_five.
  set (k := (List.length hist - 5)%nat).
  assert (List.length (skipn k hist) = Nat.min 5 (List.length hist)) as Hl.
  { rewrite List.length_skipn. unfold k. lia. }
  split; [exact Hl |]. split; [| split].
  - intros Hshort. unfold k.
    replace (List.length hist - 5)%nat with O by lia. reflexivity.
  - apply last_skipn. unfold k. lia.
  - assert (Forall (fun x => lo <= x <= hi) (skipn k hist)) as Hskip.
    { rewrite <- (firstn_skipn k hist) in Hall.
      apply Forall_app in Hall. tauto. }
    pose proof (sum_bounds _ lo hi Hskip) as [Hlo Hhi].
    unfold benchmark.mean.
    assert (0 < INR (List.length (skipn k hist))) as Hpos.
    { apply lt_0_INR. rewrite Hl. lia. }
    set (n := INR (List.length (skipn k hist))) in *.
    set (s := fold_right Rplus 0 (skipn k hist)) in *.
    split.
    + apply (Rmult_le_reg_r n); [assumption |].
      unfold Rdiv. rewrite Rmult_assoc, Rinv_l by lra. lra.
    + apply (Rmult_le_reg_r n); [assumption |].
      unfold Rdiv. rewrite Rmult_assoc, Rinv_l by lra. lra.
Qed.

(** Seven episode rewards between 0 and 10: the mean runs over the last
    five and stays between 0 and 10. *)
Lemma last_five_mean_bounds_example :
  List.length (benchmark.last_five [1; 2; 3; 4; 5; 6; 7]) = 5%nat
  /\ 0 <= benchmark.mean (benchmark.last_five [1; 2; 3; 4; 5; 6; 7]) <= 10.
Proof.
  destruct (last_five_mean_bounds [1; 2; 3; 4; 5; 6; 7] 0 10)
    as [Hlen [_ [_ Hmean]]].
  - discriminate.
  - repeat constructor; lra.
  - split; [exact Hlen | exact Hmean].
Defined.

(* ================================================================= *)
(** * The ranges of the two yaws *)

